(** * CollectionUtils and DateUtils: a shallow embedding

    The collection helpers (src/value-utils.ts, [CollectionUtils]) and the
    date helpers ([DateUtils]) are embedded as functions over a small model
    of JavaScript data.  Code that can raise a [TypeError] lives in the
    [result] monad; code that mutates a Moment object threads a store. *)

From stdpp Require Import base option list strings pretty gmap.
From Stdlib Require Import ZArith Lia Permutation Ascii.
From Equations Require Import Equations.

Set Warnings "-register-all".

Open Scope Z_scope.
Open Scope string_scope.

(* ===================================================================== *)
(** ** JavaScript values *)
(* ===================================================================== *)

(** Numbers: the integers and NaN.  Fractions and the infinities are not
    represented; none of the embedded code computes one. *)
Inductive number : Type :=
| NaN
| Num (z : Z).

(** Plain JavaScript data.  Functions, arrays and objects carry the
    identity of the object ([ref]), which is what [===] compares.  A
    function also carries its source text, which is what [toString]
    returns.  The properties of an object are listed in [Object.keys]
    order, one entry per key. *)
Inductive any : Type :=
| VUndefined
| VNull
| VBool (b : bool)
| VNumber (n : number)
| VString (s : string)
| VFunction (ref : nat) (source : string)
| VArray (ref : nat) (elems : list any)
| VObject (ref : nat) (props : list (string * any)).

Definition VNum (z : Z) : any := VNumber (Num z).

(** Exceptions.  The embedded code raises nothing itself; the run time
    raises [TypeError] on a property access or call on null/undefined and
    on a call of something that is not a function. *)
Inductive exn : Type :=
| TypeError.

Inductive result (A : Type) : Type :=
| Ok (a : A)
| Throw (e : exn).
Arguments Ok {A} a.
Arguments Throw {A} e.

(** Sequencing: an exception ends the computation. *)
Definition bind {A B : Type} (m : result A) (f : A -> result B) : result B :=
  match m with
  | Ok a => f a
  | Throw e => Throw e
  end.

Notation "x <- m ;; k" := (bind m (fun x => k))
  (at level 100, m at next level, right associativity).

(** [typeof v] *)
Definition typeof (v : any) : string :=
  match v with
  | VUndefined => "undefined"
  | VNull => "object"
  | VBool _ => "boolean"
  | VNumber _ => "number"
  | VString _ => "string"
  | VFunction _ _ => "function"
  | VArray _ _ => "object"
  | VObject _ _ => "object"
  end.

(** [a === b] *)
Definition strict_eq (a b : any) : bool :=
  match a, b with
  | VUndefined, VUndefined => true
  | VNull, VNull => true
  | VBool x, VBool y => Bool.eqb x y
  | VNumber (Num x), VNumber (Num y) => Z.eqb x y
  | VString x, VString y => String.eqb x y
  | VFunction r1 _, VFunction r2 _ => Nat.eqb r1 r2
  | VArray r1 _, VArray r2 _ => Nat.eqb r1 r2
  | VObject r1 _, VObject r2 _ => Nat.eqb r1 r2
  | _, _ => false
  end.

(** The keys of an array (and of the characters of a string): "0", "1", ... *)
Definition index_keys (n : nat) : list string :=
  map (fun i : nat => pretty i) (seq 0 n).

Definition chars (s : string) : list any :=
  map (fun c => VString (String c EmptyString)) (String.list_ascii_of_string s).

(** Own enumerable properties, in [Object.keys] order. *)
Definition own_props (v : any) : list (string * any) :=
  match v with
  | VObject _ props => props
  | VArray _ elems => combine (index_keys (length elems)) elems
  | VString s => combine (index_keys (String.length s)) (chars s)
  | _ => []
  end.

Fixpoint assoc (key : string) (props : list (string * any)) : option any :=
  match props with
  | [] => None
  | (k, v) :: rest => if String.eqb k key then Some v else assoc key rest
  end.

(** [Object.keys(v)]: a [TypeError] on null and undefined; a primitive is
    first converted to an object. *)
Definition Object_keys (v : any) : result (list string) :=
  match v with
  | VUndefined | VNull => Throw TypeError
  | _ => Ok (map fst (own_props v))
  end.

(** [v[key]] for a string key.  Inherited properties (the methods of the
    prototypes, such as [constructor] and [toString]) are not represented
    and read as undefined: the embedding is that of the code for keys that
    are own properties and for keys that no prototype defines. *)
Definition get_prop (v : any) (key : string) : result any :=
  match v with
  | VUndefined | VNull => Throw TypeError
  | _ =>
      match assoc key (own_props v) with
      | Some x => Ok x
      | None =>
          match v with
          | VArray _ elems =>
              if String.eqb key "length" then Ok (VNum (Z.of_nat (length elems)))
              else Ok VUndefined
          | VString s =>
              if String.eqb key "length" then Ok (VNum (Z.of_nat (String.length s)))
              else Ok VUndefined
          | _ => Ok VUndefined
          end
      end
  end.

Fixpoint join (sep : string) (parts : list string) : string :=
  match parts with
  | [] => ""
  | [p] => p
  | p :: rest => p +:+ sep +:+ join sep rest
  end.

(** [String(v)], the conversion behind [v.toString()] and behind the use of
    a value as a property key.  Integers print in decimal. *)
Fixpoint to_js_string (v : any) : string :=
  match v with
  | VUndefined => "undefined"
  | VNull => "null"
  | VBool true => "true"
  | VBool false => "false"
  | VNumber NaN => "NaN"
  | VNumber (Num z) => pretty z
  | VString s => s
  | VFunction _ source => source
  | VArray _ elems =>
      join ","
        ((fix each (es : list any) : list string :=
            match es with
            | [] => []
            | e :: rest =>
                match e with
                | VUndefined | VNull => ""
                | _ => to_js_string e
                end :: each rest
            end) elems)
  | VObject _ _ => "[object Object]"
  end.

(** [v.toString()] *)
Definition toString (v : any) : result string :=
  match v with
  | VUndefined | VNull => Throw TypeError
  | _ => Ok (to_js_string v)
  end.

(** *** Numeric strings

    [isNaN(v)] converts [v] to a number first.  For a string that is the
    StringNumericLiteral grammar: optional white space around nothing, a
    signed decimal literal, [Infinity], or an unsigned binary, octal or
    hexadecimal integer. *)

Definition is_space (c : ascii) : bool :=
  let n := nat_of_ascii c in
  (Nat.leb 9 n && Nat.leb n 13 || Nat.eqb n 32).

Definition is_digit (c : ascii) : bool :=
  let n := nat_of_ascii c in Nat.leb 48 n && Nat.leb n 57.

Definition is_hex_digit (c : ascii) : bool :=
  let n := nat_of_ascii c in
  is_digit c || Nat.leb 65 n && Nat.leb n 70 || Nat.leb 97 n && Nat.leb n 102.

Definition is_octal_digit (c : ascii) : bool :=
  let n := nat_of_ascii c in Nat.leb 48 n && Nat.leb n 55.

Definition is_binary_digit (c : ascii) : bool :=
  let n := nat_of_ascii c in Nat.leb 48 n && Nat.leb n 49.

Fixpoint drop_while (p : ascii -> bool) (cs : list ascii) : list ascii :=
  match cs with
  | c :: rest => if p c then drop_while p rest else cs
  | [] => []
  end.

Definition trim (cs : list ascii) : list ascii :=
  rev (drop_while is_space (rev (drop_while is_space cs))).

Definition all_of (p : ascii -> bool) (cs : list ascii) : bool :=
  negb (Nat.eqb (length cs) 0) && forallb p cs.

Definition ascii_in (c : ascii) (s : string) : bool :=
  existsb (Ascii.eqb c) (String.list_ascii_of_string s).

(** [e] or [E], an optional sign, one digit or more *)
Definition is_exponent (cs : list ascii) : bool :=
  match cs with
  | e :: rest =>
      ascii_in e "eE" &&
      match rest with
      | s :: ds => if ascii_in s "+-" then all_of is_digit ds else all_of is_digit rest
      | [] => false
      end
  | [] => false
  end.

Definition opt_exponent (cs : list ascii) : bool :=
  match cs with
  | [] => true
  | _ => is_exponent cs
  end.

(** digits [.] digits exponent, with a digit on one side of the point *)
Definition is_unsigned_decimal (cs : list ascii) : bool :=
  let int_part := take (length cs - length (drop_while is_digit cs)) cs in
  let after := drop_while is_digit cs in
  match after with
  | "."%char :: frac =>
      let after_frac := drop_while is_digit frac in
      negb (Nat.eqb (length int_part) 0 && Nat.eqb (length frac - length after_frac) 0)
      && opt_exponent after_frac
  | _ => negb (Nat.eqb (length int_part) 0) && opt_exponent after
  end.

Definition is_str_decimal (cs : list ascii) : bool :=
  let body :=
    match cs with
    | s :: rest => if ascii_in s "+-" then rest else cs
    | [] => cs
    end in
  String.eqb (String.string_of_list_ascii body) "Infinity" || is_unsigned_decimal body.

Definition is_radix_literal (cs : list ascii) : bool :=
  match cs with
  | "0"%char :: x :: ds =>
      if ascii_in x "xX" then all_of is_hex_digit ds
      else if ascii_in x "oO" then all_of is_octal_digit ds
      else if ascii_in x "bB" then all_of is_binary_digit ds
      else false
  | _ => false
  end.

(** Does [Number(s)] differ from NaN? *)
Definition string_is_numeric (s : string) : bool :=
  let cs := trim (String.list_ascii_of_string s) in
  match cs with
  | [] => true
  | _ => is_radix_literal cs || is_str_decimal cs
  end.

(** [isNaN(v)] *)
Definition isNaN (v : any) : bool :=
  match v with
  | VUndefined => true
  | VNull => false
  | VBool _ => false
  | VNumber NaN => true
  | VNumber (Num _) => false
  | VString s => negb (string_is_numeric s)
  | _ => negb (string_is_numeric (to_js_string v))
  end.

(** [for (const x of xs)] and [xs.forEach], [xs.map] used for their effect
    on a captured variable: the callback runs on each element in turn and
    threads the captured state. *)
Fixpoint forEach {A S : Type} (f : S -> A -> result S) (xs : list A) (s : S)
  : result S :=
  match xs with
  | [] => Ok s
  | x :: rest => s' <- f s x ;; forEach f rest s'
  end.

(** [xs.indexOf(x)] on an array of strings; -1 when absent *)
Fixpoint indexOf (x : string) (xs : list string) : Z :=
  match xs with
  | [] => -1
  | y :: rest =>
      if String.eqb y x then 0
      else let i := indexOf x rest in if Z.eqb i (-1) then -1 else i + 1
  end.

(* ===================================================================== *)
(** ** ValueUtils *)
(* ===================================================================== *)

(** [value != null] *)
Definition _isNotNullOrUndefined (value : any) : bool :=
  match value with
  | VUndefined | VNull => false
  | _ => true
  end.

(** [value == null] *)
Definition _isNullOrUndefined (value : any) : bool :=
  match value with
  | VUndefined | VNull => true
  | _ => false
  end.

(* ===================================================================== *)
(** ** CollectionUtils *)
(* ===================================================================== *)

(** What the collection helpers are handed: plain data (an array, a hash,
    null, undefined, or anything else) or an Immutable.js [List]. *)
Inductive collection : Type :=
| Plain (v : any)
| ImmList (elems : list any).

Definition collection_isNullOrUndefined (c : collection) : bool :=
  match c with
  | Plain v => _isNullOrUndefined v
  | ImmList _ => false
  end.

(** [isArrayLike(v)] of Immutable.js (version 4) on plain data: an array,
    a string, or an object whose [length] is a whole number that is not
    negative, when [length] is its only key and is 0, or when the object
    has the last index, [length - 1], among its own properties. *)
Definition isArrayLike (v : any) : bool :=
  match v with
  | VArray _ _ | VString _ => true
  | VObject _ props =>
      match assoc "length" props with
      | Some (VNumber (Num n)) =>
          Z.leb 0 n &&
          (if Z.eqb n 0 then Nat.eqb (length props) 1
           else match assoc (to_js_string (VNum (n - 1))) props with
                | Some _ => true
                | None => false
                end)
      | _ => false
      end
  | _ => false
  end.

(** The elements that Immutable.js reads off an array-like object: what
    the indices below [length] are bound to, undefined where one is
    missing. *)
Definition array_like_elems (props : list (string * any)) : list any :=
  match assoc "length" props with
  | Some (VNumber (Num n)) =>
      map (fun i : nat => default VUndefined (assoc (pretty i) props))
          (seq 0 (Z.to_nat n))
  | _ => []
  end.

(** [List<T>(c)] of Immutable.js: null and undefined give the empty list,
    a List is itself, an array, a string and an array-like object are read
    by index, and data that is neither array-like nor iterable (a hash, a
    number, a boolean, a function) is refused with a [TypeError]. *)
Definition List_of (c : collection) : result (list any) :=
  match c with
  | ImmList elems => Ok elems
  | Plain VUndefined | Plain VNull => Ok []
  | Plain (VArray _ elems) => Ok elems
  | Plain (VString s) => Ok (chars s)
  | Plain (VObject r props) =>
      if isArrayLike (VObject r props) then Ok (array_like_elems props)
      else Throw TypeError
  | Plain _ => Throw TypeError
  end.

(** An optional comparator; when it is absent the code installs
    [(elementOfA, elementOfB) => elementOfA === elementOfB]. *)
Definition comparator_or_default (comparator : option (any -> any -> bool))
  : any -> any -> bool :=
  match comparator with
  | None => fun elementOfA elementOfB => strict_eq elementOfA elementOfB
  | Some c => c
  end.

(** [listB.some(elementB => comparator(elementA, elementB))] *)
Definition some_match (comparator : any -> any -> bool) (listB : list any)
    (elementA : any) : bool :=
  existsb (fun elementB => comparator elementA elementB) listB.

Definition _differenceOf (collectionA collectionB : collection)
    (comparator : option (any -> any -> bool)) : result (list any) :=
  listA <- List_of collectionA ;;
  listB <- List_of collectionB ;;
  let comparator := comparator_or_default comparator in
  Ok (List.filter (fun elementA => negb (some_match comparator listB elementA)) listA).

Definition _intersectionOf (collectionA collectionB : collection)
    (comparator : option (any -> any -> bool)) : result (list any) :=
  listA <- List_of collectionA ;;
  listB <- List_of collectionB ;;
  let comparator := comparator_or_default comparator in
  Ok (List.filter (fun elementA => some_match comparator listB elementA) listA).

(** *** getDefaultMap *)

(** Key equality of an Immutable.js [Map]: [===], and NaN equal to NaN. *)
Definition immutable_is (a b : any) : bool :=
  strict_eq a b ||
  match a, b with
  | VNumber NaN, VNumber NaN => true
  | _, _ => false
  end.

(** [map.set(k, v)] of an Immutable.js [Map], as a list of entries *)
Fixpoint Map_set (k : any) (v : bool) (m : list (any * bool))
  : list (any * bool) :=
  match m with
  | [] => [(k, v)]
  | (k', v') :: rest =>
      if immutable_is k' k then (k, v) :: rest else (k', v') :: Map_set k v rest
  end.

Definition _getDefaultMap (enumType : any) (defaultValue : option bool)
  : result (list (any * bool)) :=
  let defaultValue := default false defaultValue in
  keys <- Object_keys enumType ;;
  forEach
    (fun defaultMap key =>
       value <- get_prop enumType key ;;
       if negb (isNaN value) then
         k <- get_prop enumType key ;;
         Ok (Map_set k defaultValue defaultMap)
       else
         k <- get_prop enumType (to_js_string value) ;;
         Ok (Map_set k defaultValue defaultMap))
    keys [].

(** *** isEmpty and hasValues *)

(** The measure of the recursion of [_isEmpty]: an argument that takes the
    hash branch counts double, since it costs one more call, on the array
    of its keys. *)
Definition weight1 (c : collection) : nat :=
  match c with
  | ImmList _ => 1
  | Plain VUndefined | Plain VNull | Plain (VArray _ _) => 1
  | Plain _ => 2
  end.

Definition weight (cs : list collection) : nat :=
  fold_right (fun c n => (weight1 c + n)%nat) 0%nat cs.

(** The callback of [_isEmpty] run over the arguments that remain, with the
    captured flag [isEmpty]; [_isEmpty] itself is the loop started with the
    flag set. *)
Equations? isEmpty_from (collections : list collection) (isEmpty : bool)
  : result bool by wf (weight collections) lt :=
isEmpty_from [] isEmpty := Ok isEmpty;
isEmpty_from (Plain VUndefined :: rest) isEmpty := isEmpty_from rest isEmpty;
isEmpty_from (Plain VNull :: rest) isEmpty := isEmpty_from rest isEmpty;
isEmpty_from (ImmList collectionList :: rest) isEmpty :=
  isEmpty_from rest
    (if negb (Nat.eqb (length collectionList) 0) then false else isEmpty);
isEmpty_from (Plain (VArray _ collectionArray) :: rest) isEmpty :=
  isEmpty_from rest
    (if negb (Nat.eqb (length collectionArray) 0) then false else isEmpty);
isEmpty_from (Plain collectionHash :: rest) isEmpty :=
  keys <- Object_keys collectionHash ;;
  hashIsEmpty <- isEmpty_from [Plain (VArray 0 (map VString keys))] true ;;
  isEmpty_from rest (if negb hashIsEmpty then false else isEmpty).
Proof. all: unfold weight; simpl; lia. Qed.

(** The rest parameter [collections] is always an array, so the first test
    of the source, on [collections] itself, never fires. *)
Definition _isEmpty (collections : list collection) : result bool :=
  isEmpty_from collections true.

Definition _hasValues (collections : list collection) : result bool :=
  forEach
    (fun hasValues collection =>
       empty <- _isEmpty [collection] ;;
       Ok (if negb empty then true else hasValues))
    collections false.

(** *** isEqual *)

(** The loop [for (const key of keysA)], over the properties of an object
    and over the elements of an array, whose keys are their indices.
    [isEqual] stands for the recursive call. *)
Section isEqual_loop.
Variable isEqual : any -> any -> result bool.
Variable objectB : any.
Variable keysB : list string.

(** One turn: [a] is [objectA[key]] and [next] is the rest of the loop. *)
Definition isEqual_key (key : string) (a : any) (next : result bool)
  : result bool :=
  if Z.eqb (indexOf key keysB) (-1) then Ok false
  else
    b <- get_prop objectB key ;;
    if String.eqb (typeof a) "function" || String.eqb (typeof b) "function" then
      textA <- toString a ;;
      textB <- toString b ;;
      if negb (String.eqb textA textB) then Ok false else next
    else
      equal <- isEqual a b ;;
      if negb equal then Ok false else next.

Fixpoint isEqual_props (entries : list (string * any)) : result bool :=
  match entries with
  | [] => Ok true
  | (key, a) :: rest => isEqual_key key a (isEqual_props rest)
  end.

Fixpoint isEqual_elems (i : nat) (elems : list any) : result bool :=
  match elems with
  | [] => Ok true
  | a :: rest => isEqual_key (pretty i) a (isEqual_elems (S i) rest)
  end.

End isEqual_loop.

Fixpoint _isEqual (objectA objectB : any) {struct objectA} : result bool :=
  if strict_eq objectA objectB then Ok true
  else if negb (String.eqb (typeof objectA) "object")
          || negb (String.eqb (typeof objectB) "object")
          || _isNullOrUndefined objectA || _isNullOrUndefined objectB
  then Ok false
  else
    keysA <- Object_keys objectA ;;
    keysB <- Object_keys objectB ;;
    if negb (Nat.eqb (length keysA) (length keysB)) then Ok false
    else
      match objectA with
      | VObject _ props => isEqual_props _isEqual objectB keysB props
      | VArray _ elems => isEqual_elems _isEqual objectB keysB 0 elems
      | _ => Ok true
      end.

(* ===================================================================== *)
(** ** The Moment library, as far as DateUtils uses it *)
(* ===================================================================== *)

(** The local date and time a Moment object shows.  [month] counts from 0
    as in Moment. *)
Record DateTime : Type := mkDateTime {
  year : Z;
  month : Z;
  date : Z;
  hour : Z;
  minute : Z;
  second : Z;
  millisecond : Z
}.

(** A Moment object is valid and shows a date and time, or it is the
    invalid marker, whose every getter returns NaN. *)
Inductive Moment : Type :=
| Invalid
| Valid (t : DateTime).

Definition isValid (m : Moment) : bool :=
  match m with
  | Valid _ => true
  | Invalid => false
  end.

Definition get_field (field : DateTime -> Z) (m : Moment) : number :=
  match m with
  | Valid t => Num (field t)
  | Invalid => NaN
  end.

Definition isLeapYear (y : Z) : bool :=
  (Z.eqb (y mod 4) 0 && negb (Z.eqb (y mod 100) 0)) || Z.eqb (y mod 400) 0.

(** [daysInMonth(year, month)] of Moment; a month outside 0..11 carries
    into the year. *)
Definition daysInMonth (y m : Z) : Z :=
  let modMonth := m mod 12 in
  let y := y + (m - modMonth) / 12 in
  if Z.eqb modMonth 1 then (if isLeapYear y then 29 else 28)
  else 31 - ((modMonth mod 7) mod 2).

(** A day of the month outside the month rolls over into the months after
    or before it, as the setters of a JavaScript [Date] do. *)
Fixpoint roll_days (fuel : nat) (y m d : Z) : Z * Z * Z :=
  match fuel with
  | O => (y, m, d)
  | S fuel' =>
      if Z.ltb d 1 then
        let '(y', m') := if Z.eqb m 0 then (y - 1, 11) else (y, m - 1) in
        roll_days fuel' y' m' (d + daysInMonth y' m')
      else if Z.ltb (daysInMonth y m) d then
        let '(y', m') := if Z.eqb m 11 then (y + 1, 0) else (y, m + 1) in
        roll_days fuel' y' m' (d - daysInMonth y m)
      else (y, m, d)
  end.

(** The year, month and day that [Date] makes of any three integers *)
Definition MakeDay (y m d : Z) : Z * Z * Z :=
  roll_days (Z.to_nat (Z.abs d) + 1) (y + m / 12) (m mod 12) d.

Definition msPerDay : Z := 86400000.

(** The date and time that [Date] makes of any seven integers *)
Definition MakeDate (y m d h mi s ms : Z) : DateTime :=
  let time := ((h * 60 + mi) * 60 + s) * 1000 + ms in
  let '(y', m', d') := MakeDay y m (d + time / msPerDay) in
  let t := time mod msPerDay in
  mkDateTime y' m' d' (t / 3600000) (t / 60000 mod 60) (t / 1000 mod 60) (t mod 1000).

(** The units of [diff] that are a fixed number of milliseconds.  Months,
    quarters and years, whose length depends on the calendar, are not
    represented: the date helpers are embedded for the calls in these six
    units. *)
Inductive diff_unit : Type :=
| Milliseconds | Seconds | Minutes | Hours | Days | Weeks.

(** What DateUtils takes from its surroundings: the parser, the formatter
    and the zone handling of Moment, the clock, and the format strings and
    string helpers of the application, whose sources are elsewhere. *)
Class Environment : Type := {
  (** [Moment(x)] for a string or number [x] *)
  moment_create : any -> Moment;
  (** [Moment(text, format)] *)
  moment_parse : string -> string -> Moment;
  (** [mom.tz(timezone)] *)
  moment_tz : Moment -> string -> Moment;
  (** [mom.format(formatString)] *)
  moment_format : Moment -> string -> string;
  (** [mom.isSame(Moment(), "day")] and [mom.isSame(Moment(), "year")] *)
  moment_isSame_day : Moment -> bool;
  moment_isSame_year : Moment -> bool;
  (** the minutes between local time and UTC at an instant *)
  utcOffset : Z -> Z;
  (** what a Moment object shows once its [Date] was set to a local date
      and time: that date and time where the zone has it, and a later one
      where the clocks skip it (with daylight saving, 02:30 on the day the
      clocks go forward shows as 03:30).  The zone is that of the object
      the setter is called on. *)
  local_time : DateTime -> DateTime;
  (** [Moment()]: the current local date and time *)
  now : DateTime;
  (** [Date.now()]: the current instant, in milliseconds *)
  Date_now : Z;
  (** DateFormats *)
  OrdinalTimeMeridian : string;
  OrdinalMonthDayTimeMeridian : string;
  OrdinalMonthDayYearTimeMeridian : string;
  OrdinalMonthDayTwoDigitYear : string;
  OrdinalMonthDayFullYear : string;
  ISODateTimeOffset : string;
  DateTimeOffset : string;
  (** CoreUtils.stringIsEmpty and CoreUtils.stringHasValue *)
  stringIsEmpty : string -> bool;
  stringHasValue : option string -> bool
}.

(** The units that [set] is called with in DateUtils *)
Inductive set_unit : Type :=
| SetYear | SetMonth | SetDate | SetHour | SetMinute | SetSecond.

Section Moment_setters.
Context {env : Environment}.

(** The setters of [Date] and what the object shows after them: the seven
    integers are made a date and time, which the zone keeps or moves. *)
Definition Date_set (y m d h mi s ms : Z) : Moment :=
  Valid (local_time (MakeDate y m d h mi s ms)).

(** [mom.set(unit, value)]: nothing on an invalid Moment; the month setter
    first clamps the day to the length of the new month, the year setter
    turns 29 February into 28 February in a common year, and the others
    hand the value to the [Date] setter. *)
Definition Moment_set (unit : set_unit) (value : number) (mom : Moment) : Moment :=
  match mom with
  | Invalid => Invalid
  | Valid t =>
      match value with
      | NaN =>
          match unit with
          | SetMonth => Invalid
          | _ => mom
          end
      | Num v =>
          let 'mkDateTime y m d h mi s ms := t in
          match unit with
          | SetMonth =>
              let d' := if Z.ltb d 29 then d else Z.min d (daysInMonth y v) in
              Date_set y v d' h mi s ms
          | SetDate => Date_set y m v h mi s ms
          | SetYear =>
              let d' :=
                if Z.eqb d 29 && Z.eqb m 1 && negb (isLeapYear v) then 28 else d in
              Date_set v m d' h mi s ms
          | SetHour => Date_set y m d v mi s ms
          | SetMinute => Date_set y m d h v s ms
          | SetSecond => Date_set y m d h mi v ms
          end
      end
  end.

(** [mom.add(n, "day")], which sets the day of the month of the [Date] *)
Definition Moment_add_days (n : Z) (mom : Moment) : Moment :=
  match mom with
  | Invalid => Invalid
  | Valid (mkDateTime y m d h mi s ms) => Date_set y m (d + n) h mi s ms
  end.

End Moment_setters.

(** Moment objects are mutable and are passed by reference: a store maps
    the reference to what the object shows now.  A reference that the store
    does not hold reads as the invalid marker. *)
Abbreviation store := (gmap nat Moment).

Definition deref (h : store) (l : nat) : Moment := default Invalid (h !! l).

(** A parameter of type [Moment.Moment]; the compiler lets null and
    undefined through. *)
Inductive moment_ref : Type :=
| RUndefined
| RNull
| RMoment (l : nat).

(** A method call on a Moment parameter: a [TypeError] on null or undefined *)
Definition call {A : Type} (method : Moment -> A) (h : store) (r : moment_ref)
  : result A :=
  match r with
  | RMoment l => Ok (method (deref h l))
  | _ => Throw TypeError
  end.

(** [r.set(unit, value)], in place *)
Definition call_set {env : Environment} (unit : set_unit) (value : number)
    (h : store) (r : moment_ref) : result store :=
  match r with
  | RMoment l =>
      match h !! l with
      | Some mom => Ok (<[l := Moment_set unit value mom]> h)
      | None => Ok h
      end
  | _ => Throw TypeError
  end.

(** A parameter of type [string|number|Moment.Moment] *)
Inductive timestamp : Type :=
| TPlain (v : any)
| TMoment (l : nat).

Definition timestamp_isNullOrUndefined (t : timestamp) : bool :=
  match t with
  | TPlain v => _isNullOrUndefined v
  | TMoment _ => false
  end.

(* ===================================================================== *)
(** ** DateUtils *)
(* ===================================================================== *)

Section DateUtils.
Context {env : Environment}.

(** [Moment(timestamp)]: a copy of a Moment object, or the parse of plain
    data *)
Definition Moment_of (h : store) (t : timestamp) : Moment :=
  match t with
  | TPlain v => moment_create v
  | TMoment l => deref h l
  end.

(** [Moment(a).diff(b, unitOftime)] for two instants in milliseconds that
    a [Date] can hold, with [precise] left at false: the quotient is cut
    towards zero.  Days and weeks are counted in local time.  With
    [precise] set the result is a fraction, which the embedding does not
    represent: [_dateDiff] and [_dateDiffNow] are embedded for the calls
    that leave [precise] out or pass false, as [_dateDiffNowFriendly]
    does. *)
Definition Moment_diff (a b : Z) (unitOftime : diff_unit) : Z :=
  let zoneDelta := (utcOffset b - utcOffset a) * 60000 in
  match unitOftime with
  | Milliseconds => a - b
  | Seconds => Z.quot (a - b) 1000
  | Minutes => Z.quot (a - b) 60000
  | Hours => Z.quot (a - b) 3600000
  | Days => Z.quot (a - b - zoneDelta) 86400000
  | Weeks => Z.quot (a - b - zoneDelta) 604800000
  end.

Definition _dateDiff (a b : Z) (unitOftime : option diff_unit) : Z :=
  let unitOftime := default Hours unitOftime in
  Moment_diff a b unitOftime.

Definition _dateDiffNow (date : Z) (unitOftime : option diff_unit) : Z :=
  let unitOftime := default Hours unitOftime in
  let now := Date_now in
  _dateDiff now date (Some unitOftime).

Record DateDiffNowFriendlyReturn : Type := {
  value : Z;
  unit : string
}.

Definition _dateDiffNowFriendly (date : Z) : DateDiffNowFriendlyReturn :=
  let unit := "hour" in
  let timeAgo := _dateDiffNow date (Some Hours) in
  let '(unit, timeAgo) :=
    if Z.ltb timeAgo 1 then ("minute", _dateDiffNow date (Some Minutes))
    else (unit, timeAgo) in
  let '(unit, timeAgo) :=
    if Z.ltb 24 timeAgo then ("day", _dateDiffNow date (Some Days))
    else (unit, timeAgo) in
  let unitText := unit +:+ (if negb (Z.eqb timeAgo 1) then "s" else "") in
  {| unit := unitText; value := timeAgo |}.

Definition _getDateFormatString (moment : Moment) : string :=
  if moment_isSame_day moment then OrdinalTimeMeridian
  else if moment_isSame_year moment then OrdinalMonthDayTimeMeridian
  else OrdinalMonthDayYearTimeMeridian.

(** [a === b] on numbers *)
Definition number_eq (a b : number) : bool :=
  strict_eq (VNumber a) (VNumber b).

(** The result is the formatted text or null ([None]); the store changes
    when a Moment object is handed in together with a timezone, because
    [tz] converts the object itself.  The second test of the source for an
    invalid date, [isNullOrUndefined(Moment(timestamp))], is never true,
    [Moment(...)] being an object. *)
Definition _formatDate (timestamp : timestamp) (format : option string)
    (showRelativeDates : option bool) (timezone : option string) (h : store)
  : option string * store :=
  let showRelativeDates := default false showRelativeDates in
  let invalidDateTime :=
    timestamp_isNullOrUndefined timestamp
    || isNaN (VNumber (get_field date (Moment_of h timestamp))) in
  if invalidDateTime then (None, h)
  else
    let relative :=
      if showRelativeDates then
        let todaysDate := get_field date (Valid now) in
        let yesterdaysDate := get_field date (Moment_add_days (-1) (Valid now)) in
        let tomorrowsDate := get_field date (Moment_add_days 1 (Valid now)) in
        let givenDate := get_field date (Moment_of h timestamp) in
        if number_eq givenDate yesterdaysDate then Some "Yesterday"
        else if number_eq givenDate todaysDate then Some "Today"
        else if number_eq givenDate tomorrowsDate then Some "Tomorrow"
        else None
      else None in
    match relative with
    | Some label => (Some label, h)
    | None =>
        let useTimezone := stringHasValue timezone in
        let '(moment, h) :=
          match timestamp with
          | TMoment l =>
              if useTimezone then
                let converted := moment_tz (deref h l) (default "" timezone) in
                (converted, <[l := converted]> h)
              else (deref h l, h)
          | TPlain v =>
              if useTimezone then (moment_tz (moment_create v) (default "" timezone), h)
              else (moment_create v, h)
          end in
        let formatString :=
          match format with
          | None => _getDateFormatString moment
          | Some f => f
          end in
        (Some (moment_format moment formatString), h)
    end.

Definition _copyDate (from to : moment_ref) (h : store)
  : result (moment_ref * store) :=
  fromValid <- call isValid h from ;;
  bothValid <- (if fromValid then call isValid h to else Ok false) ;;
  if bothValid then
    m <- call (get_field month) h from ;;
    h <- call_set SetMonth m h to ;;
    d <- call (get_field date) h from ;;
    h <- call_set SetDate d h to ;;
    y <- call (get_field year) h from ;;
    h <- call_set SetYear y h to ;;
    Ok (to, h)
  else Ok (to, h).

Definition _copyTime (from to : moment_ref) (h : store)
  : result (moment_ref * store) :=
  fromValid <- call isValid h from ;;
  bothValid <- (if fromValid then call isValid h to else Ok false) ;;
  if bothValid then
    hr <- call (get_field hour) h from ;;
    h <- call_set SetHour hr h to ;;
    mi <- call (get_field minute) h from ;;
    h <- call_set SetMinute mi h to ;;
    s <- call (get_field second) h from ;;
    h <- call_set SetSecond s h to ;;
    Ok (to, h)
  else Ok (to, h).

(** [val.substring(start, end)] for [0 <= start <= end]; a negative start
    counts as 0 *)
Definition substring (s : string) (a b : Z) : string :=
  let a := Z.max a 0 in
  String.substring (Z.to_nat a) (Z.to_nat (b - a)) s.

(** [s.indexOf(needle)]; -1 when absent *)
Definition string_indexOf (s needle : string) : Z :=
  match String.index 0 needle s with
  | Some i => Z.of_nat i
  | None => -1
  end.

Definition strlen (s : string) : Z := Z.of_nat (String.length s).

Definition shouldParseOrdinalMonthDayTwoDigitYear (val : string) : bool :=
  Z.leb 6 (strlen val) && Z.leb (strlen val) 8
  && Z.ltb 0 (string_indexOf (substring val (strlen val - 4) (strlen val)) "/").

Definition shouldParseOrdinalMonthDayFullYear (val : string) : bool :=
  Z.leb 8 (strlen val) && Z.leb (strlen val) 10
  && Z.ltb (string_indexOf (substring val (strlen val - 4) (strlen val)) "/") 0.

Definition commonDateFormats : list (string * (string -> bool)) :=
  [ (OrdinalMonthDayTwoDigitYear, shouldParseOrdinalMonthDayTwoDigitYear);
    (OrdinalMonthDayFullYear, shouldParseOrdinalMonthDayFullYear);
    (ISODateTimeOffset, fun _ => true);
    (DateTimeOffset, fun _ => true) ].

(** The loop of [_parseDate] over the formats that remain; when none gives
    a valid date the last chance is [Moment(value)]. *)
Fixpoint parse_with (formats : list (string * (string -> bool))) (value : string)
  : Moment :=
  match formats with
  | [] => moment_create (VString value)
  | (format, shouldParse) :: rest =>
      if negb (shouldParse value) then parse_with rest value
      else
        let moment := moment_parse value format in
        if isValid moment then moment else parse_with rest value
  end.

Definition _parseDate (value : string) : Moment :=
  if stringIsEmpty value then Invalid
  else parse_with commonDateFormats value.

End DateUtils.

(** *** An environment to run the date helpers in

    The clock stands at 15 March 2024, 10:00, in a zone with offset 0; the
    parser accepts no text; the formatter returns its format string. *)
Definition sample_env : Environment := {|
  moment_create := fun _ => Invalid;
  moment_parse := fun _ _ => Invalid;
  moment_tz := fun mom _ => mom;
  moment_format := fun _ formatString => formatString;
  moment_isSame_day := fun _ => false;
  moment_isSame_year := fun _ => false;
  utcOffset := fun _ => 0;
  local_time := fun t => t;
  now := mkDateTime 2024 2 15 10 0 0 0;
  Date_now := 1710496800000;
  OrdinalTimeMeridian := "h:mm A";
  OrdinalMonthDayTimeMeridian := "MMM Do h:mm A";
  OrdinalMonthDayYearTimeMeridian := "MMM Do YYYY h:mm A";
  OrdinalMonthDayTwoDigitYear := "M/D/YY";
  OrdinalMonthDayFullYear := "M/D/YYYY";
  ISODateTimeOffset := "YYYY-MM-DDTHH:mm:ssZ";
  DateTimeOffset := "YYYY-MM-DD HH:mm:ss Z";
  stringIsEmpty := fun s => String.eqb s "";
  stringHasValue := fun o =>
    match o with
    | Some s => negb (String.eqb s "")
    | None => false
    end
|}.

(* ===================================================================== *)
(** ** More of CollectionUtils *)
(* ===================================================================== *)

(** *** flatten *)

(** What [_flatten] is handed: plain data (a 2D array, or anything else)
    or an Immutable.js [Map], whose entries are listed in the order in
    which the Map iterates. *)
Inductive flatten_arg : Type :=
| FPlain (v : any)
| FMap (entries : list (any * any)).

(** [xs.concat(v)]: an array gives its elements, anything else itself *)
Definition Array_concat (xs : list any) (v : any) : list any :=
  match v with
  | VArray _ elems => xs ++ elems
  | _ => xs ++ [v]
  end.

Definition _flatten (collection : flatten_arg) : list any :=
  let flattened : list any := [] in
  let flattened :=
    match collection with
    | FMap map =>
        fold_left (fun flattened entry => Array_concat flattened (snd entry))
                  map flattened
    | _ => flattened
    end in
  let flattened :=
    match collection with
    | FPlain (VArray _ array) => fold_left Array_concat array flattened
    | _ => flattened
    end in
  flattened.

(** *** isComprisedOf *)

(** The [type] argument: the name of a primitive type, or a constructor,
    which stands here as the answer it gives to [o instanceof type]. *)
Inductive PrimitiveOrConstructor : Type :=
| Primitive (name : string)
| Constructor (instances : any -> bool).

Definition typeGuard (o : any) (className : PrimitiveOrConstructor) : bool :=
  match className with
  | Primitive name => String.eqb (typeof o) name
  | Constructor instances => instances o
  end.

(** [forEach] with the callback that clears the flag; the [return] in the
    callback ends one call of it, not the loop. *)
Definition all_guarded (type : PrimitiveOrConstructor) (elems : list any)
    (isInstanceOf : bool) : bool :=
  fold_left (fun isInstanceOf e => if negb (typeGuard e type) then false
                                   else isInstanceOf)
            elems isInstanceOf.

Definition _isComprisedOf (collection : collection) (type : PrimitiveOrConstructor)
  : result bool :=
  empty <- _isEmpty [collection] ;;
  if empty then Ok true
  else
    let isInstanceOf := true in
    match collection with
    | ImmList collectionList => Ok (all_guarded type collectionList isInstanceOf)
    | Plain (VArray _ collectionArray) =>
        Ok (all_guarded type collectionArray isInstanceOf)
    | _ => Ok isInstanceOf
    end.

(* ===================================================================== *)
(** ** CoreUtils (src/utils.ts) *)
(* ===================================================================== *)

(** *** coalesce *)

(** The [do ... while] of [_coalesce] after a value was shifted off:
    [value] is that value and [values] is what is left of the array. *)
Fixpoint coalesce_loop (value : any) (values : list any) : any :=
  match values with
  | [] => value
  | next :: rest =>
      if _isNullOrUndefined value then coalesce_loop next rest else value
  end.

(** [CollectionUtils.isEmpty(values)] is handed the array as its one
    argument. *)
Definition _coalesce (values : list any) : result any :=
  let value := VNull in
  empty <- _isEmpty [Plain (VArray 0 values)] ;;
  if empty then Ok value
  else
    match values with
    | [] => Ok VUndefined
    | first :: rest => Ok (coalesce_loop first rest)
    end.

Definition _isComponentReadonly (props : any) : result any :=
  isReadonly <- get_prop props "isReadonly" ;;
  _coalesce [isReadonly; VBool false].

(** *** arrayIncludes *)

(** [!!v] *)
Definition is_truthy (v : any) : bool :=
  match v with
  | VUndefined | VNull => false
  | VBool b => b
  | VNumber NaN => false
  | VNumber (Num z) => negb (Z.eqb z 0)
  | VString s => negb (String.eqb s "")
  | VFunction _ _ | VArray _ _ | VObject _ _ => true
  end.

(** A parameter of type [any[]]; the compiler lets null and undefined
    through. *)
Inductive array_ref : Type :=
| AUndefined
| ANull
| AArray (elems : list any).

(** [against.find(p)]: the first element that passes, or undefined; a
    [TypeError] when [against] is null or undefined *)
Definition Array_find (p : any -> bool) (against : array_ref) : result any :=
  match against with
  | AArray elems => Ok (default VUndefined (List.find p elems))
  | _ => Throw TypeError
  end.

(** [try { ... } catch (error) { return fallback; }] *)
Definition try_catch {A : Type} (body : result A) (fallback : A) : A :=
  match body with
  | Ok a => a
  | Throw _ => fallback
  end.

Section arrayIncludes.
(** [a == b], which the embedding leaves open *)
Variable loose_eq : any -> any -> bool.

Definition _arrayIncludes (against : array_ref) (check : any) (strict : option bool)
  : bool :=
  let strict := default true strict in
  try_catch
    (if strict then
       found <- Array_find (fun e => strict_eq e check) against ;;
       Ok (is_truthy found)
     else
       found <- Array_find (fun e => loose_eq e check) against ;;
       Ok (is_truthy found))
    false.

End arrayIncludes.

(** *** closestMultiple, getNumberOrdinal *)

(** The numbers of JavaScript are binary64 doubles.  On whole numbers the
    sum and the difference of two doubles are the exact result rounded to
    53 significant bits, a tie going to the neighbour whose last bit is 0;
    a result of 2^1024 or more is Infinity ([None]). *)
Definition round_double (z : Z) : Z :=
  let a := Z.abs z in
  let e := Z.log2 a - 52 in
  if Z.leb e 0 then z
  else
    let q := Z.shiftr a e in
    let r := a - Z.shiftl q e in
    let half := Z.shiftl 1 (e - 1) in
    let q' :=
      if Z.ltb r half then q
      else if Z.ltb half r then q + 1
      else if Z.even q then q else q + 1 in
    Z.sgn z * Z.shiftl q' e.

Definition double_of (z : Z) : option Z :=
  let r := round_double z in
  if Z.ltb (Z.abs r) (2 ^ 1024) then Some r else None.

(** For whole numbers [n] and [x] that are doubles.  [Math.floor(x / 2)]
    is exact, and so is [n % x]; the sum and the difference are rounded.
    [n % x] is NaN when [x] is 0 and when the sum is Infinity, and
    NaN it stays; the difference is no further from 0 than [n], so it is
    never Infinity. *)
Definition _closestMultiple (n x : Z) : number :=
  if Z.eqb n 0 || Z.ltb n 0 then Num 0
  else if Z.ltb n x then Num x
  else
    match double_of (n + x / 2) with
    | None => NaN
    | Some n =>
        if Z.eqb x 0 then NaN else Num (round_double (n - Z.rem n x))
    end.

Definition _getNumberOrdinal (value : Z) : string :=
  if Z.leb value 0 then ""
  else
    let j := Z.rem value 10 in
    let k := Z.rem value 100 in
    let ordinal := "th" in
    if Z.eqb j 1 && negb (Z.eqb k 11) then "st"
    else if Z.eqb j 2 && negb (Z.eqb k 12) then "nd"
    else if Z.eqb j 3 && negb (Z.eqb k 13) then "rd"
    else ordinal.

(** *** formatPhoneNumber *)

(** [s.replace(/[^0-9.]/g, "")] *)
Definition phone_char (c : ascii) : bool := is_digit c || Ascii.eqb c "."%char.

Definition keep_phone_chars (s : string) : string :=
  String.string_of_list_ascii
    (List.filter phone_char (String.list_ascii_of_string s)).

(** [s[i]] inside a template literal *)
Definition char_at (s : string) (i : nat) : string :=
  match String.get i s with
  | Some c => String c EmptyString
  | None => "undefined"
  end.

Definition _formatPhoneNumber (phoneNum : string) : string :=
  let phoneNum := keep_phone_chars phoneNum in
  if Z.ltb (strlen phoneNum) 10 || Z.ltb 11 (strlen phoneNum) then "--"
  else if Z.ltb 10 (strlen phoneNum) then
    "+" +:+ char_at phoneNum 0 +:+ " (" +:+ substring phoneNum 1 4 +:+ ") "
    +:+ substring phoneNum 4 7 +:+ "-" +:+ substring phoneNum 7 (strlen phoneNum)
  else
    "(" +:+ substring phoneNum 0 3 +:+ ") " +:+ substring phoneNum 3 6 +:+ "-"
    +:+ substring phoneNum 6 (strlen phoneNum).

(** *** removeDuplicates *)

(** [xs.indexOf(x)] on an array of values, which compares with [===];
    -1 when absent *)
Fixpoint value_indexOf (x : any) (xs : list any) : Z :=
  match xs with
  | [] => -1
  | y :: rest =>
      if strict_eq y x then 0
      else let i := value_indexOf x rest in if Z.eqb i (-1) then -1 else i + 1
  end.

(** [xs.map(f)] and [xs.filter((x, pos) => f(x, pos))] for a callback that
    may raise *)
Fixpoint mapM {A B : Type} (f : A -> result B) (xs : list A) : result (list B) :=
  match xs with
  | [] => Ok []
  | x :: rest => y <- f x ;; ys <- mapM f rest ;; Ok (y :: ys)
  end.

Fixpoint filter_pos {A : Type} (f : A -> Z -> result bool) (xs : list A) (pos : Z)
  : result (list A) :=
  match xs with
  | [] => Ok []
  | x :: rest =>
      keep <- f x pos ;;
      kept <- filter_pos f rest (pos + 1) ;;
      Ok (if keep then x :: kept else kept)
  end.

Definition _removeDuplicates (array : list any) (prop : option string)
  : result (list any) :=
  let prop := default "id" prop in
  filter_pos
    (fun obj pos =>
       props <- mapM (fun mapObj => get_prop mapObj prop) array ;;
       key <- get_prop obj prop ;;
       Ok (Z.eqb (value_indexOf key props) pos))
    array 0.

(** *** shallowMerge *)

Definition digits_value (cs : list ascii) : N :=
  fold_left (fun acc c => (acc * 10 + (N_of_ascii c - 48))%N) cs 0%N.

(** Is the key an array index, the decimal text of an integer below
    2^32 - 1?  Such keys come first in an object, in ascending order. *)
Definition array_index (key : string) : option N :=
  let cs := String.list_ascii_of_string key in
  if all_of is_digit cs then
    let n := digits_value cs in
    if String.eqb (pretty n) key && N.ltb n 4294967295 then Some n else None
  else None.

Fixpoint has_key (key : string) (props : list (string * any)) : bool :=
  match props with
  | [] => false
  | (k, _) :: rest => String.eqb k key || has_key key rest
  end.

Fixpoint replace_value (key : string) (v : any) (props : list (string * any))
  : list (string * any) :=
  match props with
  | [] => []
  | (k, x) :: rest =>
      if String.eqb k key then (k, v) :: rest
      else (k, x) :: replace_value key v rest
  end.

Fixpoint insert_index (n : N) (key : string) (v : any)
    (props : list (string * any)) : list (string * any) :=
  match props with
  | [] => [(key, v)]
  | (k, x) :: rest =>
      match array_index k with
      | Some m =>
          if N.ltb m n then (k, x) :: insert_index n key v rest
          else (key, v) :: props
      | None => (key, v) :: props
      end
  end.

(** Setting one property of an object under construction: a key that is
    there keeps its place, a new array index goes among the indices, and
    any other new key goes last. *)
Definition define_prop (key : string) (v : any) (props : list (string * any))
  : list (string * any) :=
  if has_key key props then replace_value key v props
  else
    match array_index key with
    | Some n => insert_index n key v props
    | None => (props ++ [(key, v)])%list
    end.

(** [{ ...target, ...source }] continued: the own enumerable properties
    of [source], in their order, set on [target].  Null, undefined,
    numbers and booleans have none. *)
Definition spread (target : list (string * any)) (source : any)
  : list (string * any) :=
  fold_left (fun target entry => define_prop (fst entry) (snd entry) target)
            (own_props source) target.

(** [fresh] is the identity of the object that the function creates. *)
Definition _shallowMerge (fresh : nat) (objects : list any) : result any :=
  let mergedObject := VObject fresh [] in
  empty <- _isEmpty [Plain (VArray 0 objects)] ;;
  if empty then Ok mergedObject
  else
    Ok (fold_left
          (fun mergedObject object =>
             VObject fresh (spread (spread [] mergedObject) object))
          objects mergedObject).

(** *** getSelectOptionsFromEnum *)

Module SelectOption.
Record t : Type := { label : string; value : any }.
End SelectOption.

(** [key.replace("_", " ")]: the first underscore only *)
Fixpoint replace_first (from to : ascii) (s : string) : string :=
  match s with
  | EmptyString => EmptyString
  | String c rest =>
      if Ascii.eqb c from then String to rest
      else String c (replace_first from to rest)
  end.

Fixpoint filterM {A : Type} (f : A -> result bool) (xs : list A) : result (list A) :=
  match xs with
  | [] => Ok []
  | x :: rest =>
      keep <- f x ;;
      kept <- filterM f rest ;;
      Ok (if keep then x :: kept else kept)
  end.

Definition _getSelectOptionsFromEnum (enumObject : any)
    (hasNonNumericalValues : option bool) : result (list SelectOption.t) :=
  let hasNonNumericalValues := default false hasNonNumericalValues in
  keys <- Object_keys enumObject ;;
  keys <- filterM
            (fun key =>
               if hasNonNumericalValues then Ok true
               else v <- get_prop enumObject key ;; Ok (negb (isNaN v)))
            keys ;;
  mapM (fun key =>
          let key := replace_first "_" " " key in
          v <- get_prop enumObject key ;;
          Ok {| SelectOption.label := key; SelectOption.value := v |})
       keys.

(** *** escapeSingleQuote *)

(** [s.replace(/'/g, "\\'")]: a backslash before every single quote *)
Fixpoint escape_quotes (cs : list ascii) : list ascii :=
  match cs with
  | [] => []
  | c :: rest =>
      if Ascii.eqb c "'" then "\"%char :: "'"%char :: escape_quotes rest
      else c :: escape_quotes rest
  end.

Definition _escapeSingleQuote (urlValue : option string) : string :=
  String.string_of_list_ascii
    (escape_quotes (String.list_ascii_of_string (default "" urlValue))).

(* ===================================================================== *)
(** ** More of DateUtils, and the date helpers of CoreUtils *)
(* ===================================================================== *)

(** [r.year(v)], [r.month(v)], [r.date(v)]: the setter, in place; the
    object itself is the result.  The method is looked up on [r] before
    the argument is evaluated. *)
Definition call_setter {env : Environment} (unit : set_unit)
    (arg : result number) (h : store) (r : moment_ref) : result store :=
  match r with
  | RMoment _ => v <- arg ;; call_set unit v h r
  | _ => Throw TypeError
  end.

(** [mom.date()], the day of the month *)
Definition Moment_date (mom : Moment) : number := get_field date mom.

Definition _getMergedDateTime {env : Environment} (date time : moment_ref)
    (h : store) : result (moment_ref * store) :=
  h <- call_setter SetYear (call (get_field year) h date) h time ;;
  h <- call_setter SetMonth (call (get_field month) h date) h time ;;
  h <- call_setter SetDate (call Moment_date h date) h time ;;
  Ok (time, h).

(** [s.split(sep)] for a separator of one character *)
Fixpoint split_on (sep : ascii) (s : string) : list string :=
  match s with
  | EmptyString => [EmptyString]
  | String c rest =>
      if Ascii.eqb c sep then EmptyString :: split_on sep rest
      else
        match split_on sep rest with
        | first :: others => String c first :: others
        | [] => [String c EmptyString]
        end
  end.

Section DateUtils_more.
Context {env : Environment}.
(** [DateFormats.OrdinalMonthDayYearDashedFourDigitYear] *)
Variable OrdinalMonthDayYearDashedFourDigitYear : string.
(** [date.fromNow(withoutSuffix)], for the instant that [date] denotes *)
Variable moment_fromNow : number -> bool -> string.

(** The result is a new Moment, or null ([None]). *)
Definition _getMomentFromStandardDateFormat (standardDateFormat : option string)
  : option Moment :=
  match standardDateFormat with
  | None => None
  | Some standardDateFormat =>
      let dateParts := split_on "/" standardDateFormat in
      if negb (Nat.eqb (length dateParts) 3) then None
      else
        let year := nth 2 dateParts "" in
        let month :=
          (if Nat.eqb (String.length (nth 0 dateParts "")) 1 then "0" else "")
          +:+ nth 0 dateParts "" in
        let day :=
          (if Nat.eqb (String.length (nth 1 dateParts "")) 1 then "0" else "")
          +:+ nth 1 dateParts "" in
        let newMoment :=
          moment_parse (month +:+ "-" +:+ day +:+ "-" +:+ year)
                       OrdinalMonthDayYearDashedFourDigitYear in
        Some newMoment
  end.

(** [now.diff(date, unit)] for the instant that [date] denotes; NaN for
    an invalid date *)
Definition diff_from_now (date : number) (unitOftime : diff_unit) : number :=
  match date with
  | NaN => NaN
  | Num t => Num (Moment_diff Date_now t unitOftime)
  end.

(** [a < b] and [a >= b] on numbers: false when [a] is NaN *)
Definition number_lt (a : number) (b : Z) : bool :=
  match a with
  | NaN => false
  | Num x => Z.ltb x b
  end.

Definition number_ge (a : number) (b : Z) : bool :=
  match a with
  | NaN => false
  | Num x => Z.leb b x
  end.

(** [date] is null ([None]) or the instant that the string, number or
    Moment denotes, NaN when that is no date.  The result is a text or
    null. *)
Definition _dateFromNow (date : option number) (includeSuffix shortFormat : option bool)
  : option string :=
  let includeSuffix := default false includeSuffix in
  let shortFormat := default false shortFormat in
  match date with
  | None => None
  | Some date =>
      let fromNow := moment_fromNow date (negb includeSuffix) in
      if shortFormat then
        let minutesFromNow := diff_from_now date Minutes in
        if number_lt minutesFromNow 1 then Some "Now"
        else if number_lt minutesFromNow 60 then
          Some (to_js_string (VNumber minutesFromNow) +:+ "m")
        else
          let hoursFromNow := diff_from_now date Hours in
          if number_ge hoursFromNow 1 && number_lt hoursFromNow 24 then
            Some (to_js_string (VNumber hoursFromNow) +:+ "h")
          else Some (to_js_string (VNumber (diff_from_now date Days)) +:+ "d")
      else Some fromNow
  end.

End DateUtils_more.

(* ===================================================================== *)
(** ** The vocabulary of the properties *)
(* ===================================================================== *)

(** Is one argument of [_isEmpty] null, undefined, or without elements or
    keys? *)
Definition empty1 (c : collection) : bool :=
  match c with
  | ImmList l => Nat.eqb (length l) 0
  | Plain VUndefined | Plain VNull => true
  | Plain (VArray _ l) => Nat.eqb (length l) 0
  | Plain v => Nat.eqb (length (own_props v)) 0
  end.

Definition transitive_comparator (c : any -> any -> bool) : Prop :=
  forall x y z, c x y = true -> c y z = true -> c x z = true.

(** A comparator that is not transitive: [(a, b) => a + 1 === b] *)
Definition precedes (elementOfA elementOfB : any) : bool :=
  match elementOfA, elementOfB with
  | VNumber (Num a), VNumber (Num b) => Z.eqb (a + 1) b
  | _, _ => false
  end.

(** Equality of two property values, as the loop of [_isEqual] tests it:
    by text when either is a function, by [_isEqual] otherwise. *)
Definition property_equal (a b : any) : Prop :=
  if String.eqb (typeof a) "function" || String.eqb (typeof b) "function"
  then exists text, toString a = Ok text /\ toString b = Ok text
  else _isEqual a b = Ok true.

(** The value of an enumerant as [_getDefaultMap] recognises it: a number,
    or a string that converts to one. *)
Definition is_member_value (v : any) : bool :=
  match v with
  | VNumber (Num _) => true
  | VString s => string_is_numeric s
  | _ => false
  end.

(** An enum object as the compiler emits it for an enum with numeric
    values: every property is an enumerant (name to value), or a
    reverse-lookup entry whose value is the name of an enumerant. *)
Definition reverse_entry (props : list (string * any)) (v : any) : Prop :=
  exists name v', v = VString name /\ string_is_numeric name = false /\
                  assoc name props = Some v' /\ is_member_value v' = true.

Definition numeric_enum (props : list (string * any)) : Prop :=
  NoDup (map fst props) /\
  forall k v, In (k, v) props -> is_member_value v = true \/ reverse_entry props v.

(** The key that the callback of [_getDefaultMap] sets for a property value *)
Definition enum_target (props : list (string * any)) (v : any) : any :=
  if is_member_value v then v
  else match v with
       | VString name => default VUndefined (assoc name props)
       | _ => VUndefined
       end.

(** A map under construction: its keys are enumerant values, no key
    occurs twice, and every key is bound to the default value. *)
Definition default_map (dv : bool) (m : list (any * bool)) : Prop :=
  NoDup (map fst m) /\
  (forall x, In x (map fst m) -> is_member_value x = true) /\
  (forall e, In e m -> snd e = dv).

(** What a valid Moment object shows is a date of the calendar and a time
    of the day. *)
Definition calendar (t : DateTime) : Prop :=
  0 <= month t < 12 /\ 1 <= date t <= daysInMonth (year t) (month t) /\
  0 <= hour t < 24 /\ 0 <= minute t < 60 /\ 0 <= second t < 60 /\
  0 <= millisecond t < 1000.

(** A store with an invalid Moment at 1 and 15 March 2024, 10:00, at 2 *)
Definition invalid_and_valid : store :=
  {[ 1%nat := Invalid; 2%nat := Valid (mkDateTime 2024 2 15 10 0 0 0) ]}.


(** A text that Moment reads as a date under none of the formats that
    [_parseDate] tries and not on its own *)
Definition unparseable {env : Environment} (text : string) : Prop :=
  (forall format, In format (map fst commonDateFormats) ->
                  isValid (moment_parse text format) = false) /\
  isValid (moment_create (VString text)) = false.

(** How often a character occurs in a text *)
Fixpoint count_char (c : ascii) (s : string) : nat :=
  match s with
  | EmptyString => 0
  | String c' rest => ((if Ascii.eqb c' c then 1 else 0) + count_char c rest)%nat
  end.

(** The reading of an escaped text: a backslash that stands directly
    before a single quote is dropped. *)
Fixpoint unescape_quotes (cs : list ascii) : list ascii :=
  match cs with
  | [] => []
  | c :: rest =>
      match rest with
      | c' :: rest' =>
          if Ascii.eqb c "\" && Ascii.eqb c' "'" then c' :: unescape_quotes rest'
          else c :: unescape_quotes rest
      | [] => [c]
      end
  end.

(** The property [prop] of an element of an array, undefined when the
    element has none *)
Definition prop_of (prop : string) (obj : any) : any :=
  match get_prop obj prop with
  | Ok v => v
  | Throw _ => VUndefined
  end.

(** What the objects handed to [_shallowMerge] bind a key to: the value in
    the last object that has the key *)
Definition merged_binding (key : string) (objects : list any) : option any :=
  fold_left (fun found object =>
               match assoc key (own_props object) with
               | Some v => Some v
               | None => found
               end)
            objects None.

(** The enumerants of an enum object: the properties whose value is a
    number or a numeric string *)
Definition enumerants (props : list (string * any)) : list (string * any) :=
  List.filter (fun e => is_member_value (snd e)) props.

(** The option that [_getSelectOptionsFromEnum] makes of an enumerant: the
    value is looked up under the label, not under the name. *)
Definition enum_option (props : list (string * any)) (e : string * any)
  : SelectOption.t :=
  {| SelectOption.label := replace_first "_" " " (fst e);
     SelectOption.value :=
       default VUndefined (assoc (replace_first "_" " " (fst e)) props) |}.

(** A text of one character gets a zero in front. *)
Definition pad2 (s : string) : string :=
  (if Nat.eqb (String.length s) 1 then "0" else "") +:+ s.

(** Two values hold the same data: they agree but for the identities of
    their functions, arrays and objects.  NaN is the same data as
    nothing. *)
Section same_data_lists.
Variable same : any -> any -> bool.

Fixpoint same_elems (xs ys : list any) : bool :=
  match xs, ys with
  | [], [] => true
  | x :: xs', y :: ys' => same x y && same_elems xs' ys'
  | _, _ => false
  end.

Fixpoint same_props (ps qs : list (string * any)) : bool :=
  match ps, qs with
  | [], [] => true
  | (k, x) :: ps', (k', y) :: qs' =>
      String.eqb k k' && same x y && same_props ps' qs'
  | _, _ => false
  end.

End same_data_lists.

Fixpoint same_data (a b : any) {struct a} : bool :=
  match a, b with
  | VUndefined, VUndefined => true
  | VNull, VNull => true
  | VBool x, VBool y => Bool.eqb x y
  | VNumber (Num x), VNumber (Num y) => Z.eqb x y
  | VString x, VString y => String.eqb x y
  | VFunction _ s, VFunction _ s' => String.eqb s s'
  | VArray _ xs, VArray _ ys => same_elems same_data xs ys
  | VObject _ ps, VObject _ qs => same_props same_data ps qs
  | _, _ => false
  end.

(** No object in the value lists a key twice. *)
Fixpoint well_keyed (a : any) : Prop :=
  match a with
  | VArray _ xs => fold_right (fun x rest => well_keyed x /\ rest) True xs
  | VObject _ ps =>
      NoDup (map fst ps) /\
      fold_right (fun e rest => well_keyed (snd e) /\ rest) True ps
  | _ => True
  end.

(** Is the value the number NaN, the one value that [===] does not find
    equal to itself? *)
Definition is_NaN_value (v : any) : bool :=
  match v with
  | VNumber NaN => true
  | _ => false
  end.

(** An environment whose parser reads one text, "3/4/2024", under the
    format with the full year; the rest is as in [sample_env]. *)
Definition reading_env : Environment := {|
  moment_create := fun _ => Invalid;
  moment_parse := fun text format =>
    if String.eqb text "3/4/2024" && String.eqb format "M/D/YYYY"
    then Valid (mkDateTime 2024 2 4 0 0 0 0) else Invalid;
  moment_tz := fun mom _ => mom;
  moment_format := fun _ formatString => formatString;
  moment_isSame_day := fun _ => false;
  moment_isSame_year := fun _ => false;
  utcOffset := fun _ => 0;
  local_time := fun t => t;
  now := mkDateTime 2024 2 15 10 0 0 0;
  Date_now := 1710496800000;
  OrdinalTimeMeridian := "h:mm A";
  OrdinalMonthDayTimeMeridian := "MMM Do h:mm A";
  OrdinalMonthDayYearTimeMeridian := "MMM Do YYYY h:mm A";
  OrdinalMonthDayTwoDigitYear := "M/D/YY";
  OrdinalMonthDayFullYear := "M/D/YYYY";
  ISODateTimeOffset := "YYYY-MM-DDTHH:mm:ssZ";
  DateTimeOffset := "YYYY-MM-DD HH:mm:ss Z";
  stringIsEmpty := fun s => String.eqb s "";
  stringHasValue := fun o =>
    match o with
    | Some s => negb (String.eqb s "")
    | None => false
    end
|}.

(** The zone of the object has the local date and time: its clocks do not
    skip it, so a [Date] set to it shows it. *)
Definition in_zone {env : Environment} (t : DateTime) : Prop :=
  local_time t = t.



(** And for [_getMergedDateTime], on the object [time]: the year of [date]
    (29 February becomes 28 February in a common year), then the month of
    [date] (with the day clamped to the month), then the day of [date]. *)
Definition getMergedDateTime_steps (date_ time : DateTime) : list DateTime :=
  let d1 :=
    if Z.eqb (date time) 29 && Z.eqb (month time) 1
       && negb (isLeapYear (year date_))
    then 28 else date time in
  [ mkDateTime (year date_) (month time) d1
      (hour time) (minute time) (second time) (millisecond time);
    mkDateTime (year date_) (month date_)
      (Z.min d1 (daysInMonth (year date_) (month date_)))
      (hour time) (minute time) (second time) (millisecond time);
    mkDateTime (year date_) (month date_) (date date_)
      (hour time) (minute time) (second time) (millisecond time) ].

(** An environment with daylight saving: on 10 March 2024 the clocks go
    from 02:00 to 03:00, so a [Date] set to a time of that hour shows one
    hour more.  The rest is as in [sample_env]. *)
Definition spring_forward_env : Environment := {|
  moment_create := fun _ => Invalid;
  moment_parse := fun _ _ => Invalid;
  moment_tz := fun mom _ => mom;
  moment_format := fun _ formatString => formatString;
  moment_isSame_day := fun _ => false;
  moment_isSame_year := fun _ => false;
  utcOffset := fun _ => 0;
  local_time := fun t =>
    if Z.eqb (year t) 2024 && Z.eqb (month t) 2 && Z.eqb (date t) 10
       && Z.eqb (hour t) 2
    then mkDateTime 2024 2 10 3 (minute t) (second t) (millisecond t)
    else t;
  now := mkDateTime 2024 2 15 10 0 0 0;
  Date_now := 1710496800000;
  OrdinalTimeMeridian := "h:mm A";
  OrdinalMonthDayTimeMeridian := "MMM Do h:mm A";
  OrdinalMonthDayYearTimeMeridian := "MMM Do YYYY h:mm A";
  OrdinalMonthDayTwoDigitYear := "M/D/YY";
  OrdinalMonthDayFullYear := "M/D/YYYY";
  ISODateTimeOffset := "YYYY-MM-DDTHH:mm:ssZ";
  DateTimeOffset := "YYYY-MM-DD HH:mm:ss Z";
  stringIsEmpty := fun s => String.eqb s "";
  stringHasValue := fun o =>
    match o with
    | Some s => negb (String.eqb s "")
    | None => false
    end
|}.


(** Does the value have the property among its own properties?  Null and
    undefined have none. *)
Definition has_own (prop : string) (obj : any) : bool :=
  match obj with
  | VUndefined | VNull => false
  | _ =>
      match assoc prop (own_props obj) with
      | Some _ => true
      | None => false
      end
  end.

(** The elements of a list that are the first with their key: an element
    is kept when its key is [===] to the key of no element before it and
    [===] to itself (so it is not NaN).  [seen] holds the keys of the
    elements before, in their order. *)
Fixpoint first_occurrences (key : any -> any) (seen : list any) (xs : list any)
  : list any :=
  match xs with
  | [] => []
  | x :: rest =>
      if negb (existsb (fun k => strict_eq k (key x)) seen)
         && strict_eq (key x) (key x)
      then x :: first_occurrences key (seen ++ [key x]) rest
      else first_occurrences key (seen ++ [key x]) rest
  end.

(* ===================================================================== *)
(** ** Sample runs *)
(* ===================================================================== *)

Example isNaN_samples :
  map isNaN [VString "A"; VString "0"; VString " 12 "; VString "-1.5e3";
             VString "0x1F"; VString "Infinity"; VString "1/2"; VString "";
             VString "."; VString "1e"; VNum 0; VUndefined;
             VArray 0 [VNum 5]; VObject 0 []]
  = [true; false; false; false; false; false; true; false; true; true; false;
     true; false; true].
Proof. vm_compute. reflexivity. Qed.

Example isEqual_samples :
  [ _isEqual (VArray 1 [VNum 1; VNum 2]) (VObject 2 [("0", VNum 1); ("1", VNum 2)]);
    _isEqual (VObject 1 [("a", VNum 1)]) (VObject 2 [("a", VNum 2)]);
    _isEqual (VObject 1 [("a", VNumber NaN)]) (VObject 2 [("a", VNumber NaN)]);
    _isEqual (VObject 1 [("a", VNumber NaN)]) (VObject 1 [("a", VNumber NaN)]);
    _isEqual (VObject 1 [("a", VNum 1); ("b", VNull)])
             (VObject 2 [("b", VNull); ("a", VNum 1)]);
    _isEqual (VObject 1 [("f", VFunction 7 "() => 1")])
             (VObject 2 [("f", VFunction 8 "() => 1")]);
    _isEqual (VObject 1 [("f", VFunction 7 "() => 1")]) (VObject 2 [("f", VNull)]) ]
  = [Ok true; Ok false; Ok false; Ok true; Ok true; Ok true; Throw TypeError].
Proof. vm_compute. reflexivity. Qed.

Example isEmpty_samples :
  map _isEmpty
    [ []; [Plain VNull]; [Plain (VArray 0 [])]; [Plain (VArray 0 [VNum 1])];
      [Plain (VObject 0 [])]; [Plain (VObject 0 [("a", VNum 1)])];
      [Plain (VObject 0 [("a", VArray 1 [])])]; [ImmList []; Plain VUndefined];
      [ImmList [VNull]; Plain VUndefined] ]
  = map Ok [true; true; true; false; true; false; false; true; false].
Proof. vm_compute. reflexivity. Qed.

Example getDefaultMap_samples :
  [ _getDefaultMap (VObject 0 [("A", VNum 0); ("B", VNum 1)]) (Some true);
    _getDefaultMap (VObject 0 [("0", VString "A"); ("1", VString "B");
                               ("A", VNum 0); ("B", VNum 1)]) None;
    _getDefaultMap (VObject 0 [("A", VString "x"); ("B", VString "y")]) (Some true);
    _getDefaultMap VNull (Some true) ]
  = [ Ok [(VNum 0, true); (VNum 1, true)];
      Ok [(VNum 0, false); (VNum 1, false)];
      Ok [(VUndefined, true)];
      Throw TypeError ].
Proof. vm_compute. reflexivity. Qed.

Example roll_samples :
  [ MakeDay 2023 1 29; MakeDay 2024 1 29; MakeDay 2024 0 0; MakeDay 2024 11 32;
    MakeDay 2024 12 1; MakeDay 2024 2 (-30) ]
  = [ (2023, 2, 1); (2024, 1, 29); (2023, 11, 31); (2025, 0, 1); (2025, 0, 1);
      (2024, 0, 30) ].
Proof. vm_compute. reflexivity. Qed.

Example shouldParse_samples :
  map (fun s => (shouldParseOrdinalMonthDayTwoDigitYear s,
                 shouldParseOrdinalMonthDayFullYear s))
      ["1/1/24"; "12/31/24"; "3/4/2024"; "12/31/2024"; "13/2024"; "2024-03-04"]
  = [ (true, false); (true, false); (false, true); (false, true);
      (false, false); (false, true) ].
Proof. vm_compute. reflexivity. Qed.

Example copyDate_samples :
  let from := mkDateTime 2024 1 29 8 30 0 0 in
  let to := mkDateTime 2023 0 15 12 0 0 7 in
  let h : store := {[ 1%nat := Valid from; 2%nat := Valid to ]} in
  (match @_copyDate sample_env (RMoment 1) (RMoment 2) h with
   | Ok (_, h') => h' !! 2%nat
   | Throw _ => None
   end,
   match @_copyTime sample_env (RMoment 1) (RMoment 2) h with
   | Ok (_, h') => h' !! 2%nat
   | Throw _ => None
   end)
  = (Some (Valid (mkDateTime 2024 2 1 12 0 0 7)),
     Some (Valid (mkDateTime 2023 0 15 8 30 0 7))).
Proof. vm_compute. reflexivity. Qed.

Example dateDiffNowFriendly_samples :
  let n := @Date_now sample_env in
  map (@_dateDiffNowFriendly sample_env)
      [ n - 30 * 60000; n - 10 * 60000; n - 5 * 3600000; n - 3600000;
        n - 36 * 3600000; n + 2 * 3600000 ]
  = [ {| value := 0; unit := "days" |}; {| value := 10; unit := "minutes" |};
      {| value := 5; unit := "hours" |}; {| value := 1; unit := "hour" |};
      {| value := 1; unit := "day" |}; {| value := -120; unit := "minutes" |} ].
Proof. vm_compute. reflexivity. Qed.

Example formatPhoneNumber_samples :
  map _formatPhoneNumber
      ["5555555555"; "(555) 555-5555"; "15555555555"; "555-1234"; "1.555.555.5555"]
  = ["(555) 555-5555"; "(555) 555-5555"; "+1 (555) 555-5555"; "--"; "--"].
Proof. vm_compute. reflexivity. Qed.

(* ===================================================================== *)
(** ** Properties of CollectionUtils *)
(* ===================================================================== *)

Lemma isEmpty_from_eq (cs : list collection) (flag : bool) :
  isEmpty_from cs flag = Ok (flag && forallb empty1 cs).
Proof.
  revert flag; induction cs as [|c rest IH]; intros flag.
  - simp isEmpty_from. by rewrite andb_true_r.
  - destruct c as [v|l]; [destruct v|]; simp isEmpty_from; simpl;
      simp isEmpty_from; simpl; rewrite ?IH; simpl;
      rewrite ?length_map; f_equal;
      repeat match goal with
             | |- context [Nat.eqb ?n 0] => destruct (Nat.eqb n 0)
             end;
      simpl; rewrite ?andb_false_r; reflexivity.
Qed.

Lemma isEmpty_eq (cs : list collection) :
  _isEmpty cs = Ok (forallb empty1 cs).
Proof. unfold _isEmpty. by rewrite isEmpty_from_eq. Qed.

Lemma hasValues_from_eq (cs : list collection) (flag : bool) :
  forEach
    (fun hasValues collection =>
       empty <- _isEmpty [collection] ;;
       Ok (if negb empty then true else hasValues))
    cs flag
  = Ok (flag || negb (forallb empty1 cs)).
Proof.
  revert flag; induction cs as [|c rest IH]; intros flag; simpl.
  - by rewrite orb_false_r.
  - rewrite isEmpty_eq. simpl. rewrite IH. f_equal.
    destruct (empty1 c), flag, (forallb empty1 rest); reflexivity.
Qed.

(** C3.  For every argument list (arrays, Lists, hashes, null, undefined,
    in any number, also none), [isEmpty] and [hasValues] both return, and
    [hasValues] returns the negation of what [isEmpty] returns. *)
Theorem isEmpty_hasValues_complement (collections : list collection) :
  exists b : bool,
    _isEmpty collections = Ok b /\ _hasValues collections = Ok (negb b).
Proof.
  exists (forallb empty1 collections). split.
  - apply isEmpty_eq.
  - unfold _hasValues. by rewrite hasValues_from_eq.
Qed.

(** *** differenceOf and intersectionOf *)

Lemma strict_eq_transitive : transitive_comparator strict_eq.
Proof.
  intros x y z Hxy Hyz.
  destruct x as [| |?|[|?]|?|? ?|? ?|? ?], y as [| |?|[|?]|?|? ?|? ?|? ?];
    simpl in Hxy; try discriminate;
    destruct z as [| |?|[|?]|?|? ?|? ?|? ?]; simpl in Hyz |- *;
    try discriminate; try reflexivity.
  - apply Bool.eqb_prop in Hxy, Hyz. subst. by destruct b1.
  - apply Z.eqb_eq in Hxy, Hyz. subst. apply Z.eqb_refl.
  - apply String.eqb_eq in Hxy, Hyz. subst. apply String.eqb_refl.
  - apply Nat.eqb_eq in Hxy, Hyz. subst. apply Nat.eqb_refl.
  - apply Nat.eqb_eq in Hxy, Hyz. subst. apply Nat.eqb_refl.
  - apply Nat.eqb_eq in Hxy, Hyz. subst. apply Nat.eqb_refl.
Qed.

Lemma comparator_or_default_transitive (comparator : option (any -> any -> bool)) :
  (forall c, comparator = Some c -> transitive_comparator c) ->
  transitive_comparator (comparator_or_default comparator).
Proof.
  destruct comparator as [c|]; simpl; intros H.
  - by apply H.
  - apply strict_eq_transitive.
Qed.

Lemma filter_split {A : Type} (p : A -> bool) (l : list A) :
  Permutation l (List.filter (fun x => negb (p x)) l ++ List.filter p l).
Proof.
  induction l as [|x l IH]; simpl; [constructor|].
  destruct (p x); simpl.
  - by apply Permutation_cons_app.
  - by constructor.
Qed.

Lemma filter_none {A : Type} (p : A -> bool) (l : list A) :
  (forall x, In x l -> p x = false) -> List.filter p l = [].
Proof.
  induction l as [|x l IH]; simpl; intros H; [reflexivity|].
  rewrite (H x) by (by left). apply IH. intros y Hy. apply H. by right.
Qed.

Lemma some_match_transitive (c : any -> any -> bool) (listB inter : list any)
    (x : any) :
  transitive_comparator c ->
  (forall y, In y inter -> some_match c listB y = true) ->
  some_match c inter x = true -> some_match c listB x = true.
Proof.
  unfold some_match. intros Htrans Hinter Hx.
  apply existsb_exists in Hx as (y & Hy & Hxy).
  specialize (Hinter y Hy). apply existsb_exists in Hinter as (z & Hz & Hyz).
  apply existsb_exists. exists z. split; [done|]. by apply (Htrans x y z).
Qed.

(** C4, as the code has it.  For all sequences A and B and every transitive
    comparator (the default, strict equality, is one): the difference and
    the intersection together are a rearrangement of the elements of A,
    every element of A is in exactly one of the two, and the intersection
    of the two under the same comparator is empty. *)
Theorem difference_intersection_partition
    (A B : collection) (comparator : option (any -> any -> bool))
    (a b : list any) :
  List_of A = Ok a ->
  List_of B = Ok b ->
  (forall c, comparator = Some c -> transitive_comparator c) ->
  exists d i : list any,
    _differenceOf A B comparator = Ok d /\
    _intersectionOf A B comparator = Ok i /\
    Permutation a (d ++ i) /\
    (forall x, In x a -> (In x d /\ ~ In x i) \/ (In x i /\ ~ In x d)) /\
    _intersectionOf (ImmList d) (ImmList i) comparator = Ok [].
Proof.
  intros HA HB Htrans.
  apply comparator_or_default_transitive in Htrans.
  unfold _differenceOf, _intersectionOf. rewrite HA, HB. simpl.
  set (c := comparator_or_default comparator) in *.
  eexists _, _. repeat split; try reflexivity.
  - apply filter_split.
  - intros x Hx. destruct (some_match c b x) eqn:Hm; [right|left]; split.
    + apply filter_In. by split.
    + intros Hd. apply filter_In in Hd as [_ Hd]. by rewrite Hm in Hd.
    + apply filter_In. split; [done|]. by rewrite Hm.
    + intros Hi. apply filter_In in Hi as [_ Hi]. by rewrite Hm in Hi.
  - f_equal. apply filter_none. intros x Hx.
    apply filter_In in Hx as [_ Hx].
    destruct (some_match c (List.filter _ a) x) eqn:Hm; [|reflexivity].
    apply (some_match_transitive c b) in Hm; [|done|].
    + by rewrite Hm in Hx.
    + intros y Hy. by apply filter_In in Hy as [_ Hy].
Qed.

Lemma difference_intersection_partition_witness :
  exists d i : list any,
    _differenceOf (Plain (VArray 1 [VNum 1; VNum 2; VNum 2; VNumber NaN]))
                  (ImmList [VNum 2; VNum 3]) None = Ok d /\
    _intersectionOf (Plain (VArray 1 [VNum 1; VNum 2; VNum 2; VNumber NaN]))
                    (ImmList [VNum 2; VNum 3]) None = Ok i /\
    Permutation [VNum 1; VNum 2; VNum 2; VNumber NaN] (d ++ i) /\
    (forall x, In x [VNum 1; VNum 2; VNum 2; VNumber NaN] ->
               (In x d /\ ~ In x i) \/ (In x i /\ ~ In x d)) /\
    _intersectionOf (ImmList d) (ImmList i) None = Ok [].
Proof.
  apply (difference_intersection_partition
           (Plain (VArray 1 [VNum 1; VNum 2; VNum 2; VNumber NaN]))
           (ImmList [VNum 2; VNum 3]) None
           [VNum 1; VNum 2; VNum 2; VNumber NaN] [VNum 2; VNum 3]).
  - reflexivity.
  - reflexivity.
  - intros c Hc. discriminate Hc.
Defined.

(** C4 as stated fails for a comparator that is not transitive: with
    [(a, b) => a + 1 === b], A = [1, 2] and B = [3], the difference is [1],
    the intersection is [2], and their intersection under the same
    comparator is [1], not empty. *)
Lemma difference_intersection_overlap :
  _differenceOf (Plain (VArray 1 [VNum 1; VNum 2])) (Plain (VArray 2 [VNum 3]))
                (Some precedes) = Ok [VNum 1] /\
  _intersectionOf (Plain (VArray 1 [VNum 1; VNum 2])) (Plain (VArray 2 [VNum 3]))
                  (Some precedes) = Ok [VNum 2] /\
  _intersectionOf (ImmList [VNum 1]) (ImmList [VNum 2]) (Some precedes)
    = Ok [VNum 1] /\
  _intersectionOf (ImmList [VNum 1]) (ImmList [VNum 2]) (Some precedes) <> Ok [].
Proof. repeat split; discriminate. Qed.

(** *** isEqual *)

Lemma indexOf_found (x : string) (xs : list string) :
  In x xs -> Z.eqb (indexOf x xs) (-1) = false.
Proof.
  assert (Hrange : forall ys, indexOf x ys = -1 \/ 0 <= indexOf x ys).
  { induction ys as [|y ys IH]; simpl; [by left|].
    destruct (String.eqb y x); [right; lia|].
    destruct (Z.eqb_spec (indexOf x ys) (-1)); [by left|right; lia]. }
  induction xs as [|y xs IH]; simpl; [done|].
  intros [->|Hin].
  - by rewrite String.eqb_refl.
  - destruct (String.eqb y x); [done|].
    specialize (IH Hin). rewrite IH.
    destruct (Hrange xs) as [E|E]; [rewrite E in IH; discriminate|].
    apply Z.eqb_neq. lia.
Qed.

Lemma length_index_keys (n : nat) : length (index_keys n) = n.
Proof. unfold index_keys. by rewrite length_map, length_seq. Qed.

Lemma map_fst_combine {A B : Type} (xs : list A) (ys : list B) :
  length xs = length ys -> map fst (combine xs ys) = xs.
Proof.
  revert ys; induction xs as [|x xs IH]; intros [|y ys]; simpl; try done.
  intros [= H]. by rewrite IH.
Qed.

(** In an object whose keys are the indices from [s] on, in order, the
    key of index [s + j] reads the [j]-th entry. *)
Lemma assoc_index_keys (props : list (string * any)) (s j : nat)
    (p : string * any) :
  map fst props = map (fun i : nat => pretty i) (seq s (length props)) ->
  props !! j = Some p ->
  assoc (pretty (s + j)%nat) props = Some (snd p).
Proof.
  revert s j; induction props as [|[k v] rest IH]; intros s j Hkeys Hj;
    [done|].
  simpl in Hkeys. injection Hkeys as Hk Hrest.
  destruct j as [|j]; simpl in *.
  - injection Hj as <-. rewrite Nat.add_0_r, Hk. by rewrite String.eqb_refl.
  - destruct (String.eqb_spec k (pretty (s + S j)%nat)) as [E|_].
    + rewrite Hk in E. apply (inj pretty) in E. lia.
    + rewrite <- Nat.add_succ_comm. by apply IH.
Qed.

Lemma isEqual_elems_true (objectB : any) (keysB : list string)
    (elems : list any) (i : nat) :
  (forall j a, elems !! j = Some a ->
     In (pretty (i + j)%nat) keysB /\
     exists b, get_prop objectB (pretty (i + j)%nat) = Ok b /\ property_equal a b) ->
  isEqual_elems _isEqual objectB keysB i elems = Ok true.
Proof.
  revert i; induction elems as [|a rest IH]; intros i H; simpl; [done|].
  destruct (H 0%nat a eq_refl) as (Hin & b & Hget & Heq).
  rewrite Nat.add_0_r in Hin, Hget.
  unfold isEqual_key. rewrite (indexOf_found _ _ Hin), Hget. simpl.
  assert (Hrest : isEqual_elems _isEqual objectB keysB (S i) rest = Ok true).
  { apply IH. intros j a' Hj. rewrite Nat.add_succ_comm. by apply (H (S j)). }
  unfold property_equal in Heq.
  destruct (String.eqb (typeof a) "function" || String.eqb (typeof b) "function").
  - destruct Heq as (text & -> & ->). simpl. by rewrite String.eqb_refl.
  - rewrite Heq. simpl. exact Hrest.
Qed.

(** C10.  [isEqual] looks only at the enumerable string keys: an array and
    a plain object whose keys are the indices of the array and whose values
    are pairwise equal (by text for functions, by [isEqual] otherwise)
    compare equal. *)
Theorem isEqual_array_object (ra ro : nat) (elems : list any)
    (props : list (string * any)) :
  map fst props = index_keys (length elems) ->
  Forall2 (fun a p => property_equal a (snd p)) elems props ->
  _isEqual (VArray ra elems) (VObject ro props) = Ok true.
Proof.
  intros Hkeys Hvalues.
  assert (Hlen : length props = length elems).
  { symmetry. by eapply Forall2_length. }
  simpl.
  rewrite map_fst_combine by (by rewrite length_index_keys).
  rewrite Hkeys, Nat.eqb_refl. simpl.
  apply isEqual_elems_true. intros j a Hj. simpl.
  destruct (Forall2_lookup_l _ _ _ _ _ Hvalues Hj) as (p & Hp & Heq).
  assert (j < length elems)%nat by (by eapply lookup_lt_Some).
  split.
  - unfold index_keys. apply in_map_iff. exists j. split; [done|].
    apply in_seq. lia.
  - exists (snd p). split; [|done].
    assert (Ha : assoc (pretty j) props = Some (snd p)).
    { apply (assoc_index_keys props 0 j p); [|done].
      rewrite Hkeys. unfold index_keys. by rewrite Hlen. }
    unfold get_prop. simpl. by rewrite Ha.
Qed.

(** [isEqual([1, 2], {"0": 1, "1": 2})] is true. *)
Lemma isEqual_array_object_witness :
  _isEqual (VArray 1 [VNum 1; VNum 2]) (VObject 2 [("0", VNum 1); ("1", VNum 2)])
  = Ok true.
Proof.
  apply (isEqual_array_object 1 2 [VNum 1; VNum 2]
           [("0", VNum 1); ("1", VNum 2)]).
  - reflexivity.
  - repeat constructor.
Defined.

(** *** getDefaultMap *)

Lemma assoc_In (props : list (string * any)) (k : string) (v : any) :
  NoDup (map fst props) -> In (k, v) props -> assoc k props = Some v.
Proof.
  induction props as [|[k' v'] rest IH]; simpl; [done|].
  intros Hnd [[= -> ->]|Hin].
  - by rewrite String.eqb_refl.
  - apply NoDup_cons in Hnd as [Hk' Hnd].
    destruct (String.eqb_spec k' k) as [->|_]; [|by apply IH].
    exfalso. apply Hk'. apply list_elem_of_In. apply in_map_iff. by exists (k, v).
Qed.

Lemma assoc_Some_In (props : list (string * any)) (k : string) (v : any) :
  assoc k props = Some v -> In (k, v) props.
Proof.
  induction props as [|[k' v'] rest IH]; simpl; [done|].
  destruct (String.eqb_spec k' k) as [->|_].
  - intros [= ->]. by left.
  - intros H. right. by apply IH.
Qed.

Lemma immutable_is_member (a b : any) :
  is_member_value a = true -> is_member_value b = true ->
  immutable_is a b = true <-> a = b.
Proof.
  unfold immutable_is.
  destruct a as [| |?|[|x]|s|? ?|? ?|? ?], b as [| |?|[|y]|t|? ?|? ?|? ?];
    simpl; try discriminate; intros _ _; rewrite ?orb_false_r.
  - rewrite Z.eqb_eq. split; [by intros ->|by intros [= ->]].
  - split; [done|discriminate].
  - split; [done|discriminate].
  - rewrite String.eqb_eq. split; [by intros ->|by intros [= ->]].
Qed.

Section Map_set_facts.
Variable dv : bool.

Lemma Map_set_keys (k : any) (m : list (any * bool)) :
  default_map dv m -> is_member_value k = true ->
  forall x, In x (map fst (Map_set k dv m)) <-> x = k \/ In x (map fst m).
Proof.
  intros (_ & Hmem & _) Hk. induction m as [|[k' v'] rest IH]; simpl.
  - intros x. split; [intros [<-|[]]; by left|intros [->|[]]; by left].
  - assert (Hk' : is_member_value k' = true) by (apply Hmem; by left).
    destruct (immutable_is k' k) eqn:E; simpl.
    + apply immutable_is_member in E as ->; [|done..]. intros x. intuition congruence.
    + intros x. rewrite IH; [intuition congruence|].
      intros y Hy. apply Hmem. by right.
Qed.

Lemma Map_set_default_map (k : any) (m : list (any * bool)) :
  default_map dv m -> is_member_value k = true -> default_map dv (Map_set k dv m).
Proof.
  intros Hm Hk. pose proof (Map_set_keys k m Hm Hk) as Hkeys.
  destruct Hm as (Hnd & Hmem & Hval). split; [|split].
  - clear Hkeys. induction m as [|[k' v'] rest IH]; simpl.
    + apply NoDup_singleton.
    + apply NoDup_cons in Hnd as [Hk' Hnd].
      assert (Hmk' : is_member_value k' = true) by (apply Hmem; by left).
      assert (Hrest : default_map dv rest).
      { split; [done|split]; intros; [apply Hmem|apply Hval]; by right. }
      destruct (immutable_is k' k) eqn:E; simpl.
      * apply immutable_is_member in E as ->; [|done..].
        by apply NoDup_cons.
      * apply NoDup_cons. split.
        -- rewrite list_elem_of_In, (Map_set_keys k rest Hrest Hk).
           intros [->|Hin].
           ++ assert (immutable_is k k = true) by (by apply immutable_is_member).
              congruence.
           ++ apply Hk'. by apply list_elem_of_In.
        -- apply IH; [done| |];
             intros; [apply Hmem|apply Hval]; by right.
  - intros x Hx. apply Hkeys in Hx as [->|Hx]; [done|by apply Hmem].
  - clear Hkeys Hnd Hmem. induction m as [|[k' v'] rest IH]; simpl.
    + intros e [<-|[]]. done.
    + destruct (immutable_is k' k); simpl.
      * intros e [<-|He]; [done|]. apply Hval. by right.
      * intros e [<-|He]; [apply (Hval (k', v')); by left|].
        apply IH; [|done]. intros e' He'. apply Hval. by right.
Qed.

End Map_set_facts.

Lemma enum_target_member (props : list (string * any)) (k : string) (v : any) :
  numeric_enum props -> In (k, v) props ->
  is_member_value (enum_target props v) = true /\
  exists name, In (name, enum_target props v) props.
Proof.
  intros [Hnd Hentries] Hin. unfold enum_target.
  destruct (Hentries k v Hin) as [Hm|(name & v' & -> & Hname & Hassoc & Hm)].
  - rewrite Hm. split; [done|by exists k].
  - simpl. rewrite Hname, Hassoc. simpl. split; [done|].
    exists name. by apply assoc_Some_In.
Qed.

Lemma getDefaultMap_callback (r : nat) (props : list (string * any)) (dv : bool)
    (defaultMap : list (any * bool)) (k : string) (v : any) :
  numeric_enum props -> In (k, v) props ->
  (value <- get_prop (VObject r props) k ;;
   if negb (isNaN value) then
     k' <- get_prop (VObject r props) k ;;
     Ok (Map_set k' dv defaultMap)
   else
     k' <- get_prop (VObject r props) (to_js_string value) ;;
     Ok (Map_set k' dv defaultMap))
  = Ok (Map_set (enum_target props v) dv defaultMap).
Proof.
  intros [Hnd Hentries] Hin. unfold get_prop, enum_target. simpl.
  rewrite (assoc_In props k v Hnd Hin). simpl.
  destruct (Hentries k v Hin) as [Hm|(name & v' & -> & Hname & Hassoc & Hm)].
  - rewrite Hm.
    destruct v as [| |?|[|?]|?|? ?|? ?|? ?]; simpl in Hm |- *; try discriminate.
    + reflexivity.
    + by rewrite Hm.
  - simpl. rewrite Hname. simpl. by rewrite Hassoc.
Qed.

Lemma getDefaultMap_loop (r : nat) (props : list (string * any)) (dv : bool)
    (entries : list (string * any)) (defaultMap : list (any * bool)) :
  numeric_enum props ->
  (forall e, In e entries -> In e props) ->
  default_map dv defaultMap ->
  exists m,
    forEach
      (fun defaultMap key =>
         value <- get_prop (VObject r props) key ;;
         if negb (isNaN value) then
           k <- get_prop (VObject r props) key ;;
           Ok (Map_set k dv defaultMap)
         else
           k <- get_prop (VObject r props) (to_js_string value) ;;
           Ok (Map_set k dv defaultMap))
      (map fst entries) defaultMap = Ok m /\
    default_map dv m /\
    forall x, In x (map fst m) <->
              In x (map fst defaultMap) \/
              exists e, In e entries /\ x = enum_target props (snd e).
Proof.
  intros Henum. revert defaultMap.
  induction entries as [|[k v] rest IH]; intros defaultMap Hsub Hmap;
    cbn [map fst forEach].
  - exists defaultMap. split; [done|]. split; [done|].
    intros x. split; [by left|]. by intros [?|(? & [] & _)].
  - assert (Hin : In (k, v) props) by (apply Hsub; by left).
    rewrite (getDefaultMap_callback r props dv defaultMap k v Henum Hin).
    cbn [bind].
    destruct (enum_target_member props k v Henum Hin) as [Hmember _].
    destruct (IH (Map_set (enum_target props v) dv defaultMap)) as (m & -> & Hm & Hkeys).
    + intros e He. apply Hsub. by right.
    + by apply Map_set_default_map.
    + exists m. split; [done|]. split; [done|].
      intros x. rewrite Hkeys, (Map_set_keys dv _ _ Hmap Hmember).
      split.
      * intros [[->|?]|(e & He & ->)]; [right|by left|right].
        -- exists (k, v). split; [by left|done].
        -- exists e. split; [by right|done].
      * intros [?|(e & [<-|He] & ->)]; [left; by right|left; by left|right].
        by exists e.
Qed.

(** C9, as the code has it.  For every enum object with numeric values
    (each property is an enumerant, or a reverse-lookup entry that names
    one), [getDefaultMap] returns a mapping that has one entry for each
    enumerant value and no other, each bound to the default value; and
    [getDefaultMap({A:0,B:1}, true)] is the mapping [{0:true, 1:true}]. *)
Theorem getDefaultMap_numeric_enum :
  (forall (r : nat) (props : list (string * any)) (defaultValue : option bool),
     numeric_enum props ->
     exists m,
       _getDefaultMap (VObject r props) defaultValue = Ok m /\
       NoDup (map fst m) /\
       (forall key, In key (map fst m) <->
                    is_member_value key = true /\ exists name, In (name, key) props) /\
       (forall key b, In (key, b) m -> b = default false defaultValue)) /\
  _getDefaultMap (VObject 0 [("A", VNum 0); ("B", VNum 1)]) (Some true)
  = Ok [(VNum 0, true); (VNum 1, true)].
Proof.
  split; [|reflexivity].
  intros r props defaultValue Henum. unfold _getDefaultMap. simpl.
  destruct (getDefaultMap_loop r props (default false defaultValue) props [] Henum)
    as (m & Hrun & (Hnd & Hmem & Hval) & Hkeys).
  { done. }
  { split; [constructor|]. split; [intros x []|intros e []]. }
  exists m. split; [exact Hrun|]. split; [exact Hnd|]. split.
  - intros key. rewrite Hkeys. split.
    + intros [[]|([k v] & He & ->)]. simpl.
      by apply (enum_target_member props k v).
    + intros [Hkey [name Hname]]. right. exists (name, key). split; [done|].
      simpl. unfold enum_target. by rewrite Hkey.
  - intros key b Hin. apply (Hval (key, b) Hin).
Qed.

(** The enum object of [enum E { A, B }], reverse-lookup keys included *)
Lemma getDefaultMap_numeric_enum_witness :
  exists m,
    _getDefaultMap
      (VObject 0 [("0", VString "A"); ("1", VString "B");
                  ("A", VNum 0); ("B", VNum 1)]) (Some true) = Ok m /\
    NoDup (map fst m) /\
    (forall key, In key (map fst m) <->
       is_member_value key = true /\
       exists name, In (name, key) [("0", VString "A"); ("1", VString "B");
                                    ("A", VNum 0); ("B", VNum 1)]) /\
    (forall key b, In (key, b) m -> b = true).
Proof.
  destruct getDefaultMap_numeric_enum as [general _].
  apply (general 0%nat [("0", VString "A"); ("1", VString "B");
                        ("A", VNum 0); ("B", VNum 1)] (Some true)).
  split.
  - apply NoDup_ListNoDup. repeat constructor; simpl; intuition discriminate.
  - intros k v Hin. simpl in Hin.
    destruct Hin as [E|[E|[E|[E|[]]]]]; injection E as <- <-.
    + right. exists "A", (VNum 0). repeat split.
    + right. exists "B", (VNum 1). repeat split.
    + by left.
    + by left.
Defined.

(** C9 as stated fails for an enum with string values, which has no
    reverse-lookup entries: [getDefaultMap({A:"x", B:"y"}, true)] has the
    single key undefined, and neither "x" nor "y". *)
Lemma getDefaultMap_string_enum :
  _getDefaultMap (VObject 0 [("A", VString "x"); ("B", VString "y")]) (Some true)
  = Ok [(VUndefined, true)].
Proof. reflexivity. Qed.

(* ===================================================================== *)
(** ** Properties of DateUtils *)
(* ===================================================================== *)

Lemma daysInMonth_range (y m : Z) : 28 <= daysInMonth y m <= 31.
Proof.
  unfold daysInMonth.
  destruct (Z.eqb (m mod 12) 1); [destruct (isLeapYear _); lia|].
  pose proof (Z.mod_pos_bound (m mod 12 mod 7) 2). lia.
Qed.

Lemma MakeDay_calendar (y m d : Z) :
  0 <= m < 12 -> 1 <= d <= daysInMonth y m -> MakeDay y m d = (y, m, d).
Proof.
  intros Hm Hd. unfold MakeDay.
  rewrite Z.div_small, Z.mod_small, Z.add_0_r by lia.
  rewrite Nat.add_1_r. simpl.
  destruct (Z.ltb_spec d 1); [lia|].
  destruct (Z.ltb_spec (daysInMonth y m) d); [lia|done].
Qed.

Lemma MakeDate_calendar (y m d h mi s ms : Z) :
  0 <= m < 12 -> 1 <= d <= daysInMonth y m ->
  0 <= h < 24 -> 0 <= mi < 60 -> 0 <= s < 60 -> 0 <= ms < 1000 ->
  MakeDate y m d h mi s ms = mkDateTime y m d h mi s ms.
Proof.
  intros Hm Hd Hh Hmi Hs Hms. unfold MakeDate, msPerDay.
  set (time := ((h * 60 + mi) * 60 + s) * 1000 + ms).
  assert (Htime : 0 <= time < 86400000) by (unfold time; lia).
  rewrite (Z.div_small time), (Z.mod_small time), Z.add_0_r by lia.
  rewrite MakeDay_calendar by done.
  f_equal; unfold time; Z.div_mod_to_equations; lia.
Qed.

(** *** The setters on a date of the calendar *)

Ltac calendar_facts :=
  unfold calendar in *; simpl in *;
  repeat match goal with
         | H : _ /\ _ |- _ => destruct H
         end.

Ltac zone_steps H :=
  apply Forall_cons in H as [?Hstep1 H];
  apply Forall_cons in H as [?Hstep2 H];
  apply Forall_cons in H as [?Hstep3 _].

Section setters_facts.
Context {env : Environment}.

Lemma Date_set_calendar (y m d h mi s ms : Z) :
  0 <= m < 12 -> 1 <= d <= daysInMonth y m ->
  0 <= h < 24 -> 0 <= mi < 60 -> 0 <= s < 60 -> 0 <= ms < 1000 ->
  in_zone (mkDateTime y m d h mi s ms) ->
  Date_set y m d h mi s ms = Valid (mkDateTime y m d h mi s ms).
Proof.
  intros Hm Hd Hh Hmi Hs Hms Hz. unfold Date_set.
  rewrite MakeDate_calendar by done. by rewrite Hz.
Qed.

Lemma set_month_calendar (t : DateTime) (v : Z) :
  calendar t -> 0 <= v < 12 ->
  in_zone (mkDateTime (year t) v (Z.min (date t) (daysInMonth (year t) v))
             (hour t) (minute t) (second t) (millisecond t)) ->
  Moment_set SetMonth (Num v) (Valid t)
  = Valid (mkDateTime (year t) v (Z.min (date t) (daysInMonth (year t) v))
             (hour t) (minute t) (second t) (millisecond t)).
Proof.
  destruct t as [y m d h mi s ms]. intros Ht Hv Hz. calendar_facts.
  pose proof (daysInMonth_range y v). pose proof (daysInMonth_range y m).
  assert (E : (if Z.ltb d 29 then d else Z.min d (daysInMonth y v))
              = Z.min d (daysInMonth y v)).
  { destruct (Z.ltb_spec d 29); lia. }
  rewrite E. apply Date_set_calendar; try lia. exact Hz.
Qed.

Lemma set_date_calendar (t : DateTime) (v : Z) :
  calendar t -> 1 <= v <= daysInMonth (year t) (month t) ->
  in_zone (mkDateTime (year t) (month t) v
             (hour t) (minute t) (second t) (millisecond t)) ->
  Moment_set SetDate (Num v) (Valid t)
  = Valid (mkDateTime (year t) (month t) v
             (hour t) (minute t) (second t) (millisecond t)).
Proof.
  destruct t as [y m d h mi s ms]. intros Ht Hv Hz. calendar_facts.
  apply Date_set_calendar; try lia. exact Hz.
Qed.



(** C8.  When either operand is an invalid date value, [copyDate] and
    [copyTime] return [to] itself and change no object. *)
Theorem copy_invalid_operand (lf lt : nat) (h : store) :
  isValid (deref h lf) = false \/ isValid (deref h lt) = false ->
  _copyDate (RMoment lf) (RMoment lt) h = Ok (RMoment lt, h) /\
  _copyTime (RMoment lf) (RMoment lt) h = Ok (RMoment lt, h).
Proof.
  unfold _copyDate, _copyTime. cbn [call bind].
  destruct (isValid (deref h lf)), (isValid (deref h lt));
    cbn [bind]; intros [?|?]; try discriminate; done.
Qed.

End setters_facts.

Lemma copy_invalid_operand_witness :
  @_copyDate sample_env (RMoment 1) (RMoment 2) invalid_and_valid
    = Ok (RMoment 2, invalid_and_valid) /\
  @_copyTime sample_env (RMoment 1) (RMoment 2) invalid_and_valid
    = Ok (RMoment 2, invalid_and_valid).
Proof.
  apply (@copy_invalid_operand sample_env 1 2 invalid_and_valid).
  left. reflexivity.
Defined.

(** *** copyDate and copyTime on two valid dates *)

Lemma deref_insert (h : store) (l l' : nat) (mom : Moment) :
  deref (<[l := mom]> h) l' = if decide (l = l') then mom else deref h l'.
Proof. unfold deref. rewrite lookup_insert. by case_decide. Qed.

Lemma deref_Some (h : store) (l : nat) (mom : Moment) :
  h !! l = Some mom -> deref h l = mom.
Proof. intros H. unfold deref. by rewrite H. Qed.

(** Reading a field of [from] after [to] was set: when the two are one
    object the field read is the one just written or kept. *)
Lemma read_after_set (field : DateTime -> Z) (h : store) (lf lt : nat)
    (from t : DateTime) :
  h !! lf = Some (Valid from) ->
  (lf = lt -> field t = field from) ->
  get_field field (deref (<[lt := Valid t]> h) lf) = Num (field from).
Proof.
  intros Hf Halias. rewrite deref_insert. case_decide as E.
  - simpl. f_equal. by apply Halias.
  - by rewrite (deref_Some _ _ _ Hf).
Qed.

Section copy_facts.
Context {env : Environment}.

Lemma call_set_valid (unit : set_unit) (v : number) (h : store) (l : nat)
    (mom : Moment) :
  h !! l = Some mom ->
  call_set unit v h (RMoment l) = Ok (<[l := Moment_set unit v mom]> h).
Proof. intros H. unfold call_set. by rewrite H. Qed.

Lemma set_after_set (unit : set_unit) (v : number) (h : store) (l : nat)
    (t : DateTime) :
  call_set unit v (<[l := Valid t]> h) (RMoment l)
  = Ok (<[l := Moment_set unit v (Valid t)]> h).
Proof.
  rewrite (call_set_valid unit v _ l (Valid t)) by apply lookup_insert_eq.
  by rewrite insert_insert_eq.
Qed.




End copy_facts.



(** Where the clocks skip a time the proviso fails and so does the
    conclusion: with the clocks going forward at 02:00 on 10 March 2024,
    [copyDate] of 10 March 2024, 12:00, onto 1 January 2024, 02:30, leaves
    [to] at 03:30, not at its own time of the day. *)
Example copyDate_spring_forward :
  let h : store := {[ 1%nat := Valid (mkDateTime 2024 2 10 12 0 0 0);
                      2%nat := Valid (mkDateTime 2024 0 1 2 30 0 0) ]} in
  match @_copyDate spring_forward_env (RMoment 1) (RMoment 2) h with
  | Ok (_, h') => h' !! 2%nat
  | Throw _ => None
  end = Some (Valid (mkDateTime 2024 2 10 3 30 0 0)).
Proof. vm_compute. reflexivity. Qed.

(** *** dateDiffNowFriendly *)

(** C1, at a timestamp 30 minutes in the past: the code does not report
    minutes.  The hour count is 0, so the minute count 30 is taken; the
    second test then sees 30, which exceeds 24, and the count of days
    replaces it.  In a zone with one offset the result is 0 "days". *)
Theorem dateDiffNowFriendly_30_minutes_ago (env : Environment) :
  value (_dateDiffNowFriendly (Date_now - 1800000))
  = Z.quot (1800000 - (utcOffset (Date_now - 1800000) - utcOffset Date_now) * 60000)
           86400000 /\
  (unit (_dateDiffNowFriendly (Date_now - 1800000)) = "day" \/
   unit (_dateDiffNowFriendly (Date_now - 1800000)) = "days") /\
  @_dateDiffNowFriendly sample_env (@Date_now sample_env - 1800000)
  = {| value := 0; unit := "days" |}.
Proof.
  unfold _dateDiffNowFriendly, _dateDiffNow, _dateDiff, Moment_diff.
  cbn [default from_option id].
  replace (Date_now - (Date_now - 1800000)) with 1800000 by lia.
  change (Z.quot 1800000 3600000) with 0.
  change (Z.quot 1800000 60000) with 30.
  cbn [Z.ltb Z.compare Pos.compare Pos.compare_cont].
  set (days := Z.quot _ 86400000).
  split; [reflexivity|]. split; [|reflexivity].
  cbn [unit]. destruct (Z.eqb days 1); [by left|by right].
Qed.

(** *** formatDate *)

(** The day of the month of yesterday is never that of today. *)
Lemma yesterday_date {env : Environment} (t : DateTime) :
  calendar t ->
  in_zone (MakeDate (year t) (month t) (date t + -1)
             (hour t) (minute t) (second t) (millisecond t)) ->
  exists d',
    get_field date (Moment_add_days (-1) (Valid t)) = Num d' /\ d' <> date t.
Proof.
  destruct t as [y m d h mi s ms]. intros Ct Hz.
  cbn [year month date hour minute second millisecond] in Hz.
  unfold Moment_add_days, Date_set. rewrite Hz. clear Hz. calendar_facts.
  unfold MakeDate, msPerDay.
  set (time := ((h * 60 + mi) * 60 + s) * 1000 + ms).
  assert (Htime : 0 <= time < 86400000) by (unfold time; lia).
  rewrite (Z.div_small time), Z.add_0_r by lia.
  unfold MakeDay. rewrite Z.div_small, Z.mod_small, Z.add_0_r by lia.
  rewrite Nat.add_1_r. cbn [roll_days].
  destruct (Z.ltb_spec (d + -1) 1).
  - assert (d = 1) as -> by lia.
    cbn [Z.add Z.abs Z.to_nat Pos.add Z.pos_sub roll_days].
    destruct (Z.eqb m 0).
    + pose proof (daysInMonth_range (y - 1) 11). simpl.
      eexists. split; [reflexivity|]. lia.
    + pose proof (daysInMonth_range y (m - 1)). simpl.
      eexists. split; [reflexivity|]. lia.
  - destruct (Z.ltb_spec (daysInMonth y m) (d + -1)); [lia|].
    simpl. eexists. split; [reflexivity|]. lia.
Qed.

(** With [showRelativeDates] set, a Moment object that shows today's day
    of the month is labelled "Today", whatever its month and year (in a
    zone that has yesterday at this time of the day). *)
Lemma formatDate_today_by_day_of_month {env : Environment} (l : nat) (h : store)
    (t : DateTime) (format timezone : option string) :
  h !! l = Some (Valid t) -> calendar now -> date t = date now ->
  in_zone (MakeDate (year now) (month now) (date now + -1)
             (hour now) (minute now) (second now) (millisecond now)) ->
  fst (_formatDate (TMoment l) format (Some true) timezone h) = Some "Today".
Proof.
  intros Hl Cnow Hday Hzone.
  destruct (yesterday_date now Cnow Hzone) as (d' & Hy & Hd').
  unfold _formatDate.
  cbn [default from_option id timestamp_isNullOrUndefined Moment_of orb].
  rewrite (deref_Some _ _ _ Hl). cbn [get_field isNaN].
  rewrite Hy. unfold number_eq. cbn [strict_eq get_field].
  rewrite Hday.
  destruct (Z.eqb_spec (date now) d') as [E|_]; [congruence|].
  by rewrite Z.eqb_refl.
Qed.

(** C2, at a timestamp one month before today: with the clock at 15 March
    2024, a Moment that shows 15 February 2024 is labelled "Today", one
    that shows 14 January 2023 "Yesterday", and one that shows 16 December
    1999 "Tomorrow": the labels follow the day of the month alone. *)
Theorem formatDate_relative_day_of_month :
  fst (@_formatDate sample_env (TMoment 1) None (Some true) None
         {[ 1%nat := Valid (mkDateTime 2024 1 15 10 0 0 0) ]}) = Some "Today" /\
  fst (@_formatDate sample_env (TMoment 1) None (Some true) None
         {[ 1%nat := Valid (mkDateTime 2023 0 14 10 0 0 0) ]}) = Some "Yesterday" /\
  fst (@_formatDate sample_env (TMoment 1) None (Some true) None
         {[ 1%nat := Valid (mkDateTime 1999 11 16 10 0 0 0) ]}) = Some "Tomorrow".
Proof. repeat split. Qed.

Section DateUtils_facts.
Context {env : Environment}.

Lemma isValid_false (mom : Moment) : isValid mom = false -> mom = Invalid.
Proof. by destruct mom. Qed.

Lemma parse_with_invalid (formats : list (string * (string -> bool)))
    (text : string) :
  (forall format, In format (map fst formats) ->
                  isValid (moment_parse text format) = false) ->
  isValid (moment_create (VString text)) = false ->
  parse_with formats text = Invalid.
Proof.
  intros Hformats Hlast. induction formats as [|[format shouldParse] rest IH];
    simpl.
  - by apply isValid_false.
  - assert (Hrest : parse_with rest text = Invalid).
    { apply IH. intros f Hf. apply Hformats. by right. }
    destruct (shouldParse text); simpl; [|done].
    by rewrite (Hformats format) by (by left).
Qed.

Lemma formatDate_invalid (timestamp : timestamp) (format : option string)
    (showRelativeDates : option bool) (timezone : option string) (h : store) :
  timestamp_isNullOrUndefined timestamp = true \/
  Moment_of h timestamp = Invalid ->
  _formatDate timestamp format showRelativeDates timezone h = (None, h).
Proof.
  intros H. unfold _formatDate. cbn zeta.
  destruct H as [-> | ->]; [done|]. simpl. by rewrite orb_true_r.
Qed.

(** C5.  [parseDate] returns a date value for every text (it is a total
    function: nothing in it can raise).  The value is the invalid marker
    when the text is empty and when Moment can read it under none of the
    formats tried; for "13/2024" the two slash formats are not tried at
    all, so it is invalid as soon as Moment rejects it under the two
    offset formats and on its own.  [formatDate] returns null for null,
    for undefined and for an invalid date value. *)
Theorem parseDate_invalid_marker :
  (forall text, stringIsEmpty text = true -> _parseDate text = Invalid) /\
  (forall text, unparseable text -> _parseDate text = Invalid) /\
  (isValid (moment_parse "13/2024" ISODateTimeOffset) = false ->
   isValid (moment_parse "13/2024" DateTimeOffset) = false ->
   isValid (moment_create (VString "13/2024")) = false ->
   _parseDate "13/2024" = Invalid) /\
  (forall format showRelativeDates timezone h,
     _formatDate (TPlain VNull) format showRelativeDates timezone h = (None, h) /\
     _formatDate (TPlain VUndefined) format showRelativeDates timezone h = (None, h)) /\
  (forall l format showRelativeDates timezone h,
     h !! l = Some Invalid ->
     _formatDate (TMoment l) format showRelativeDates timezone h = (None, h)).
Proof.
  split; [|split; [|split; [|split]]].
  - intros text H. unfold _parseDate. by rewrite H.
  - intros text [Hformats Hlast]. unfold _parseDate.
    destruct (stringIsEmpty text); [done|].
    by apply parse_with_invalid.
  - intros Hiso Hoffset Hlast. unfold _parseDate.
    destruct (stringIsEmpty "13/2024"); [done|].
    unfold commonDateFormats, parse_with.
    change (shouldParseOrdinalMonthDayTwoDigitYear "13/2024") with false.
    change (shouldParseOrdinalMonthDayFullYear "13/2024") with false.
    cbn [negb]. rewrite Hiso, Hoffset. by apply isValid_false.
  - intros format showRelativeDates timezone h.
    split; apply formatDate_invalid; by left.
  - intros l format showRelativeDates timezone h Hl.
    apply formatDate_invalid. right. simpl. by apply deref_Some.
Qed.

End DateUtils_facts.

(** In the sample environment: the empty text and "13/2024" parse to the
    invalid marker, and [formatDate] of that marker is null. *)
Lemma parseDate_invalid_marker_witness :
  @_parseDate sample_env "" = Invalid /\
  @_parseDate sample_env "13/2024" = Invalid /\
  @_formatDate sample_env (TMoment 1) None None None
     {[ 1%nat := @_parseDate sample_env "13/2024" ]}
  = (None, {[ 1%nat := @_parseDate sample_env "13/2024" ]}).
Proof.
  destruct (@parseDate_invalid_marker sample_env)
    as (Hempty & Hunparseable & Hexample & _ & Hformat).
  split; [|split].
  - apply Hempty. reflexivity.
  - apply Hexample; reflexivity.
  - apply Hformat. reflexivity.
Defined.

(** *** What null and undefined arguments do *)

Lemma filter_all {A : Type} (p : A -> bool) (l : list A) :
  (forall x, p x = true) -> List.filter p l = l.
Proof.
  intros H. induction l as [|x l IH]; simpl; [done|]. by rewrite H, IH.
Qed.

Lemma get_prop_defined (obj : any) (prop : string) :
  _isNullOrUndefined obj = false -> get_prop obj prop = Ok (prop_of prop obj).
Proof.
  intros H. unfold prop_of.
  destruct obj; try discriminate H; unfold get_prop;
    repeat match goal with
           | |- context [match ?x with _ => _ end] => destruct x
           end; reflexivity.
Qed.





Section absent_arguments.
Context {env : Environment}.




End absent_arguments.



(* ===================================================================== *)
(** ** Further properties of CollectionUtils *)
(* ===================================================================== *)

(** *** flatten *)

Lemma fold_Array_concat (rows : list (nat * list any)) (acc : list any) :
  fold_left Array_concat (map (fun row => VArray (fst row) (snd row)) rows) acc
  = (acc ++ List.concat (map snd rows))%list.
Proof.
  revert acc; induction rows as [|[r xs] rows IH]; intros acc; simpl.
  - by rewrite app_nil_r.
  - by rewrite IH, app_assoc.
Qed.

(** X1.  [flatten] of an array of arrays is the concatenation of the
    arrays, in order; so is [flatten] of a Map whose values are arrays, in
    the order of iteration; and [flatten] of plain data that is not an
    array (null, undefined, a hash) is the empty array. *)
Theorem flatten_concat :
  (forall (r : nat) (rows : list (nat * list any)),
     _flatten (FPlain (VArray r (map (fun row => VArray (fst row) (snd row)) rows)))
     = List.concat (map snd rows)) /\
  (forall (entries : list (any * (nat * list any))),
     _flatten (FMap (map (fun e => (fst e, VArray (fst (snd e)) (snd (snd e))))
                         entries))
     = List.concat (map (fun e => snd (snd e)) entries)) /\
  (forall v : any,
     match v with
     | VArray _ _ => True
     | _ => _flatten (FPlain v) = []
     end).
Proof.
  split; [|split].
  - intros r rows. unfold _flatten. by rewrite fold_Array_concat.
  - intros entries. unfold _flatten.
    assert (H : forall acc,
      fold_left (fun flattened entry => Array_concat flattened (snd entry))
        (map (fun e : any * (nat * list any) =>
                (fst e, VArray (fst (snd e)) (snd (snd e)))) entries) acc
      = (acc ++ List.concat (map (fun e => snd (snd e)) entries))%list).
    { induction entries as [|[k [r xs]] entries IH]; intros acc; simpl.
      - by rewrite app_nil_r.
      - by rewrite IH, app_assoc. }
    by rewrite H.
  - by intros [].
Qed.

(** *** isComprisedOf *)

Lemma all_guarded_forallb (type : PrimitiveOrConstructor) (elems : list any)
    (flag : bool) :
  all_guarded type elems flag
  = flag && forallb (fun e => typeGuard e type) elems.
Proof.
  unfold all_guarded. revert flag.
  induction elems as [|e elems IH]; intros flag; simpl.
  - by rewrite andb_true_r.
  - rewrite IH. by destruct (typeGuard e type), flag.
Qed.

(** X2.  For a List and for an array, [isComprisedOf] is true exactly when
    every element passes the type guard (so it is true when there is no
    element), and for null and undefined it is true. *)
Theorem isComprisedOf_sequence (elems : list any) (type : PrimitiveOrConstructor)
    (r : nat) :
  _isComprisedOf (ImmList elems) type
    = Ok (forallb (fun e => typeGuard e type) elems) /\
  _isComprisedOf (Plain (VArray r elems)) type
    = Ok (forallb (fun e => typeGuard e type) elems) /\
  _isComprisedOf (Plain VNull) type = Ok true /\
  _isComprisedOf (Plain VUndefined) type = Ok true.
Proof.
  unfold _isComprisedOf. rewrite !isEmpty_eq. cbn [bind forallb empty1].
  rewrite !all_guarded_forallb.
  destruct elems; repeat split; reflexivity.
Qed.

(** X3.  A hash is never inspected: for every plain object, whatever its
    values, [isComprisedOf] is true for every type. *)
Theorem isComprisedOf_hash (r : nat) (props : list (string * any))
    (type : PrimitiveOrConstructor) :
  _isComprisedOf (Plain (VObject r props)) type = Ok true.
Proof.
  unfold _isComprisedOf. rewrite isEmpty_eq. cbn [bind].
  by destruct (forallb _ _).
Qed.

(* ===================================================================== *)
(** ** Properties of CoreUtils *)
(* ===================================================================== *)

(** *** coalesce *)

Lemma coalesce_loop_eq (first : any) (rest : list any) :
  coalesce_loop first rest
  = match List.find _isNotNullOrUndefined (first :: rest) with
    | Some v => v
    | None => List.last (first :: rest) VNull
    end.
Proof.
  revert first; induction rest as [|next rest IH]; intros first.
  - by destruct first.
  - cbn [coalesce_loop]. rewrite IH. by destruct first.
Qed.

Lemma coalesce_eq (values : list any) :
  _coalesce values
  = Ok match List.find _isNotNullOrUndefined values with
       | Some v => v
       | None => List.last values VNull
       end.
Proof.
  unfold _coalesce. rewrite isEmpty_eq. cbn [bind forallb empty1].
  destruct values as [|first rest]; [reflexivity|].
  cbn [length Nat.eqb andb]. by rewrite coalesce_loop_eq.
Qed.

(** X4.  [coalesce] returns the first argument that is neither null nor
    undefined; when every argument is null or undefined it returns the
    last one, which may be undefined; without arguments it returns null. *)
Theorem coalesce_first_defined (values : list any) :
  _coalesce values
  = Ok match List.find _isNotNullOrUndefined values with
       | Some v => v
       | None => List.last values VNull
       end.
Proof. apply coalesce_eq. Qed.

(** X5.  [isComponentReadonly] never returns null or undefined: for a
    props object it returns the [isReadonly] property when that is set
    and false otherwise. *)
Theorem isComponentReadonly_defined (r : nat) (props : list (string * any)) :
  exists v,
    _isComponentReadonly (VObject r props) = Ok v /\
    _isNullOrUndefined v = false /\
    v = match assoc "isReadonly" props with
        | Some x => if _isNullOrUndefined x then VBool false else x
        | None => VBool false
        end.
Proof.
  unfold _isComponentReadonly, get_prop. cbn [own_props].
  destruct (assoc "isReadonly" props) as [x|]; cbn [bind];
    rewrite coalesce_eq.
  - eexists. split; [reflexivity|]. by destruct x.
  - eexists. split; [reflexivity|]. done.
Qed.

(** *** arrayIncludes *)

Lemma strict_eq_truthy (e check : any) :
  strict_eq e check = true -> is_truthy e = is_truthy check.
Proof.
  destruct e as [| |?|[|?]|?|? ?|? ?|? ?], check as [| |?|[|?]|?|? ?|? ?|? ?];
    simpl; try discriminate; try reflexivity.
  - intros H. apply Bool.eqb_prop in H. by subst.
  - intros H. apply Z.eqb_eq in H. by subst.
  - intros H. apply String.eqb_eq in H. by subst.
Qed.

(** X6.  With strict comparison (the default), [arrayIncludes] is true
    exactly when [check] is truthy and some element is [===] to it: a
    falsy value such as 0, "" or false is reported absent from an array
    that holds it.  For null and undefined in place of the array the
    error is caught and the result is false. *)
Theorem arrayIncludes_strict (loose_eq : any -> any -> bool) (elems : list any)
    (check : any) (strict : option bool) :
  _arrayIncludes loose_eq (AArray elems) check None
    = is_truthy check && existsb (fun e => strict_eq e check) elems /\
  _arrayIncludes loose_eq (AArray elems) check (Some true)
    = is_truthy check && existsb (fun e => strict_eq e check) elems /\
  _arrayIncludes loose_eq ANull check strict = false /\
  _arrayIncludes loose_eq AUndefined check strict = false.
Proof.
  assert (H : try_catch
                (found <- Array_find (fun e => strict_eq e check) (AArray elems) ;;
                 Ok (is_truthy found)) false
              = is_truthy check && existsb (fun e => strict_eq e check) elems).
  { cbn [Array_find bind try_catch].
    induction elems as [|e elems IH]; cbn [List.find existsb].
    - by rewrite andb_false_r.
    - destruct (strict_eq e check) eqn:E; cbn [orb].
      + cbn [default from_option id]. rewrite andb_true_r.
        by apply strict_eq_truthy.
      + exact IH. }
  unfold _arrayIncludes. cbn [default from_option id].
  repeat split; try exact H; by destruct strict as [[]|].
Qed.

(** *** closestMultiple *)

Lemma round_double_exact (z : Z) : Z.abs z < 2 ^ 53 -> round_double z = z.
Proof.
  intros Hz. unfold round_double. cbn zeta.
  destruct (Z.leb_spec (Z.log2 (Z.abs z) - 52) 0) as [_|He]; [done|].
  destruct (Z.eq_dec (Z.abs z) 0) as [E|E].
  - rewrite E in He. simpl in He. lia.
  - assert (Z.log2 (Z.abs z) < 53) by (apply Z.log2_lt_pow2; lia). lia.
Qed.

Lemma double_of_exact (z : Z) : Z.abs z < 2 ^ 53 -> double_of z = Some z.
Proof.
  intros Hz. unfold double_of. cbn zeta. rewrite round_double_exact by done.
  assert (2 ^ 53 <= 2 ^ 1024) by (apply Z.pow_le_mono_r; lia).
  destruct (Z.ltb_spec (Z.abs z) (2 ^ 1024)); [done|lia].
Qed.

(** X7.  For positive integers [n] and [x] with [n + floor(x / 2)] below
    2^53, where the arithmetic of doubles is exact, [closestMultiple]
    returns a positive multiple of [x]: when [x <= n] one that is nearest
    to [n] (no further than half of [x]), and when [x > n] it returns [x]
    itself, never 0. *)
Theorem closestMultiple_nearest (n x : Z) :
  0 < n -> 0 < x -> n + x / 2 < 2 ^ 53 ->
  exists r,
    _closestMultiple n x = Num r /\ Z.divide x r /\ 0 < r /\
    (x <= n -> 2 * Z.abs (r - n) <= x) /\
    (n < x -> r = x).
Proof.
  intros Hn Hx Hsafe. unfold _closestMultiple.
  destruct (Z.eqb_spec n 0); [lia|].
  destruct (Z.ltb_spec n 0); [lia|]. cbn [orb].
  destruct (Z.ltb_spec n x).
  - exists x. split; [done|]. split; [apply Z.divide_refl|]. lia.
  - destruct (Z.eqb_spec x 0); [lia|].
    assert (0 <= x / 2) by (apply Z.div_pos; lia).
    rewrite double_of_exact by lia.
    rewrite Z.rem_mod_nonneg by lia.
    assert (E : n + x / 2 - (n + x / 2) mod x = x * ((n + x / 2) / x)).
    { pose proof (Z.div_mod (n + x / 2) x). lia. }
    assert (1 <= (n + x / 2) / x).
    { apply Z.div_le_lower_bound; lia. }
    assert (0 <= (n + x / 2) mod x < x) by (apply Z.mod_pos_bound; lia).
    rewrite round_double_exact by lia.
    eexists. split; [reflexivity|].
    rewrite E. split; [by apply Z.divide_factor_l|].
    split; [nia|]. split; [|lia].
    intros _. rewrite <- E. Z.div_mod_to_equations. nia.
Qed.

Lemma closestMultiple_nearest_witness :
  exists r,
    _closestMultiple 17 5 = Num r /\ Z.divide 5 r /\ 0 < r /\
    (5 <= 17 -> 2 * Z.abs (r - 17) <= 5) /\
    (17 < 5 -> r = 5).
Proof. apply (closestMultiple_nearest 17 5); [lia|lia|reflexivity]. Defined.

(** Beyond 2^53 the sum is rounded and the result need not be nearest:
    for [n] = 2^53 and [x] = 3 the sum 2^53 + 1 is no double and becomes
    2^53, and the result is 2^53 - 2, at distance 2 from [n]. *)
Example closestMultiple_rounded :
  _closestMultiple (2 ^ 53) 3 = Num (2 ^ 53 - 2) /\
  _closestMultiple 17 0 = NaN /\
  _closestMultiple 0 5 = Num 0 /\
  _closestMultiple 3 5 = Num 5.
Proof. vm_compute. repeat split. Qed.

(** *** formatPhoneNumber *)

Lemma length_string_of_list_ascii (l : list ascii) :
  String.length (String.string_of_list_ascii l) = length l.
Proof. induction l; simpl; congruence. Qed.

Lemma filter_cons_keep (c : ascii) (l : list ascii) :
  phone_char c = true ->
  List.filter phone_char (c :: l) = c :: List.filter phone_char l.
Proof. intros H. simpl. by rewrite H. Qed.

Lemma filter_cons_drop (c : ascii) (l : list ascii) :
  phone_char c = false ->
  List.filter phone_char (c :: l) = List.filter phone_char l.
Proof. intros H. simpl. by rewrite H. Qed.

Ltac phone_filter :=
  unfold keep_phone_chars; cbn [String.list_ascii_of_string];
  repeat first [ rewrite filter_cons_keep by assumption
               | rewrite filter_cons_drop by reflexivity ];
  reflexivity.

(** The characters that [_formatPhoneNumber] keeps of its argument, as a
    list: every one is a digit or a point. *)
Lemma keep_phone_chars_list (p : string) :
  exists l, keep_phone_chars p = String.string_of_list_ascii l /\
            Forall (fun c => phone_char c = true) l.
Proof.
  exists (List.filter phone_char (String.list_ascii_of_string p)).
  split; [reflexivity|].
  apply Forall_forall. intros c Hc. apply list_elem_of_In in Hc.
  by apply filter_In in Hc as [_ Hc].
Qed.

Lemma formatPhoneNumber_kept (phoneNum : string) :
  String.length (keep_phone_chars phoneNum) = 10%nat \/
  String.length (keep_phone_chars phoneNum) = 11%nat ->
  keep_phone_chars (_formatPhoneNumber phoneNum) = keep_phone_chars phoneNum.
Proof.
  destruct (keep_phone_chars_list phoneNum) as (l & Hk & Hl).
  unfold _formatPhoneNumber, strlen. rewrite Hk, length_string_of_list_ascii.
  intros Hlen.
  assert (Hcases : length l = 10%nat \/ length l = 11%nat) by lia.
  clear Hlen Hk.
  destruct Hcases as [H|H];
    repeat (destruct l as [|? l]; simpl in H; try lia);
    repeat match goal with
           | Hf : Forall _ (_ :: _) |- _ => apply Forall_cons in Hf as [? Hf]
           end;
    match goal with
    | |- keep_phone_chars ?b = _ =>
        let b' := eval vm_compute in b in change b with b'
    end;
    phone_filter.
Qed.

Lemma formatPhoneNumber_dashes (phoneNum : string) :
  String.length (keep_phone_chars phoneNum) <> 10%nat ->
  String.length (keep_phone_chars phoneNum) <> 11%nat ->
  _formatPhoneNumber phoneNum = "--".
Proof.
  intros H10 H11. unfold _formatPhoneNumber, strlen.
  destruct (Z.ltb_spec (Z.of_nat (String.length (keep_phone_chars phoneNum))) 10);
    [reflexivity|].
  destruct (Z.ltb_spec 11 (Z.of_nat (String.length (keep_phone_chars phoneNum))));
    [reflexivity|]. lia.
Qed.

(** X8.  [formatPhoneNumber] loses no digit: when 10 or 11 characters of
    the argument are digits or points, these same characters, in order,
    are the digits and points of the result; otherwise the result is
    "--". *)
Theorem formatPhoneNumber_keeps_digits (phoneNum : string) :
  (String.length (keep_phone_chars phoneNum) = 10%nat \/
   String.length (keep_phone_chars phoneNum) = 11%nat ->
   keep_phone_chars (_formatPhoneNumber phoneNum) = keep_phone_chars phoneNum) /\
  (String.length (keep_phone_chars phoneNum) <> 10%nat ->
   String.length (keep_phone_chars phoneNum) <> 11%nat ->
   _formatPhoneNumber phoneNum = "--").
Proof.
  split; [apply formatPhoneNumber_kept|apply formatPhoneNumber_dashes].
Qed.

Lemma formatPhoneNumber_keeps_digits_witness :
  keep_phone_chars (_formatPhoneNumber "1 (555) 555-5555")
  = keep_phone_chars "1 (555) 555-5555" /\
  _formatPhoneNumber "555-1234" = "--".
Proof.
  destruct (formatPhoneNumber_keeps_digits "1 (555) 555-5555") as [H _].
  destruct (formatPhoneNumber_keeps_digits "555-1234") as [_ H'].
  split.
  - apply H. right. reflexivity.
  - apply H'; vm_compute; discriminate.
Defined.

(** X9.  Formatting a phone number twice gives what formatting it once
    gives. *)
Theorem formatPhoneNumber_idempotent (phoneNum : string) :
  _formatPhoneNumber (_formatPhoneNumber phoneNum) = _formatPhoneNumber phoneNum.
Proof.
  destruct (Nat.eq_dec (String.length (keep_phone_chars phoneNum)) 10) as [E|N10].
  - unfold _formatPhoneNumber at 1 3.
    by rewrite formatPhoneNumber_kept by (by left).
  - destruct (Nat.eq_dec (String.length (keep_phone_chars phoneNum)) 11) as [E|N11].
    + unfold _formatPhoneNumber at 1 3.
      by rewrite formatPhoneNumber_kept by (by right).
    + by rewrite (formatPhoneNumber_dashes _ N10 N11).
Qed.

(** *** escapeSingleQuote *)

Lemma escape_quotes_head (cs : list ascii) :
  match escape_quotes cs with
  | c :: _ => Ascii.eqb c "'" = false
  | [] => True
  end.
Proof.
  destruct cs as [|c rest]; simpl; [done|].
  destruct (Ascii.eqb c "'") eqn:E; [reflexivity|exact E].
Qed.

Lemma unescape_escape (cs : list ascii) :
  unescape_quotes (escape_quotes cs) = cs.
Proof.
  induction cs as [|c rest IH]; [reflexivity|].
  cbn [escape_quotes]. destruct (Ascii.eqb c "'") eqn:E.
  - apply Ascii.eqb_eq in E as ->. cbn. by rewrite IH.
  - pose proof (escape_quotes_head rest) as Hhead.
    cbn [unescape_quotes]. destruct (escape_quotes rest) as [|c' rest'] eqn:Er.
    + cbn in IH. by rewrite <- IH.
    + rewrite Hhead, andb_false_r. by rewrite IH.
Qed.

Lemma escape_quotes_preceded (cs : list ascii) (i : nat) :
  escape_quotes cs !! i = Some "'"%char ->
  exists j, i = S j /\ escape_quotes cs !! j = Some "\"%char.
Proof.
  revert i; induction cs as [|c rest IH]; intros i; [by destruct i|].
  cbn [escape_quotes]. destruct (Ascii.eqb c "'") eqn:E.
  - destruct i as [|[|k]]; cbn.
    + discriminate.
    + intros _. by exists 0%nat.
    + intros Hk. destruct (IH k Hk) as (j & -> & Hj).
      by exists (S (S j)).
  - destruct i as [|k]; cbn.
    + intros [= ->]. discriminate E.
    + intros Hk. destruct (IH k Hk) as (j & -> & Hj).
      by exists (S j).
Qed.

Lemma escape_quotes_length (s : string) :
  length (escape_quotes (String.list_ascii_of_string s))
  = (String.length s + count_char "'" s)%nat.
Proof.
  induction s as [|c rest IH]; [reflexivity|].
  cbn [String.list_ascii_of_string escape_quotes String.length count_char].
  destruct (Ascii.eqb c "'"); cbn [length]; rewrite IH; lia.
Qed.

(** X10.  [escapeSingleQuote] puts a backslash before every single quote
    and changes nothing else: in the result every single quote stands
    directly after a backslash, the result is longer than the argument by
    one character for each of its single quotes, and dropping the
    backslashes that stand before a quote gives the argument back.  For
    null and undefined the result is the empty text. *)
Theorem escapeSingleQuote_round_trip :
  (forall urlValue : string,
     let escaped :=
       String.list_ascii_of_string (_escapeSingleQuote (Some urlValue)) in
     (forall i, escaped !! i = Some "'"%char ->
                exists j, i = S j /\ escaped !! j = Some "\"%char) /\
     length escaped = (String.length urlValue + count_char "'" urlValue)%nat /\
     unescape_quotes escaped = String.list_ascii_of_string urlValue) /\
  _escapeSingleQuote None = "".
Proof.
  split; [|reflexivity]. intros urlValue. unfold _escapeSingleQuote.
  cbn zeta. rewrite String.list_ascii_of_string_of_list_ascii.
  cbn [default from_option id]. split; [|split].
  - apply escape_quotes_preceded.
  - apply escape_quotes_length.
  - apply unescape_escape.
Qed.

(** In [it's] the quote stands at index 3 of the result, after the
    backslash at index 2. *)
Lemma escapeSingleQuote_round_trip_witness :
  exists j, 3%nat = S j /\
    String.list_ascii_of_string (_escapeSingleQuote (Some "it's")) !! j
    = Some "\"%char.
Proof.
  destruct escapeSingleQuote_round_trip as [general _].
  destruct (general "it's") as (preceded & _ & _).
  apply (preceded 3%nat). reflexivity.
Defined.

(** *** closestMultiple, getNumberOrdinal *)

(** X11.  The ordinal suffix of a positive integer depends on its last
    two digits only, and it is "th" for every integer that ends in 11, 12
    or 13. *)
Theorem getNumberOrdinal_last_two_digits (value : Z) :
  0 < value ->
  _getNumberOrdinal (value + 100) = _getNumberOrdinal value /\
  (Z.rem value 100 = 11 \/ Z.rem value 100 = 12 \/ Z.rem value 100 = 13 ->
   _getNumberOrdinal value = "th").
Proof.
  intros Hpos. unfold _getNumberOrdinal.
  destruct (Z.leb_spec value 0); [lia|].
  destruct (Z.leb_spec (value + 100) 0); [lia|].
  rewrite !Z.rem_mod_nonneg by lia.
  replace ((value + 100) mod 10) with (value mod 10)
    by (Z.div_mod_to_equations; lia).
  replace ((value + 100) mod 100) with (value mod 100)
    by (Z.div_mod_to_equations; lia).
  split; [reflexivity|].
  intros Hteen.
  assert (E : value mod 10 = (value mod 100) mod 10)
    by (Z.div_mod_to_equations; lia).
  rewrite E. by destruct Hteen as [->|[->| ->]].
Qed.

Lemma getNumberOrdinal_last_two_digits_witness :
  _getNumberOrdinal (11 + 100) = _getNumberOrdinal 11 /\
  (Z.rem 11 100 = 11 \/ Z.rem 11 100 = 12 \/ Z.rem 11 100 = 13 ->
   _getNumberOrdinal 11 = "th").
Proof. apply (getNumberOrdinal_last_two_digits 11). lia. Defined.

(* ===================================================================== *)
(** ** Further properties of the date helpers *)
(* ===================================================================== *)

(** *** dateDiffNowFriendly *)

(** X13.  [dateDiffNowFriendly] reports whole hours, between 1 and 24, for
    a timestamp from one hour to less than 25 hours in the past; and it
    reports minutes for every timestamp less than 25 minutes in the past
    and for every timestamp in the future, however far ahead (the count
    is then negative). *)
Theorem dateDiffNowFriendly_ranges {env : Environment} (date : Z) :
  (3600000 <= Date_now - date < 90000000 ->
   _dateDiffNowFriendly date
   = {| value := (Date_now - date) / 3600000;
        unit := if Z.eqb ((Date_now - date) / 3600000) 1 then "hour" else "hours" |}) /\
  (Date_now - date < 1500000 ->
   _dateDiffNowFriendly date
   = {| value := Z.quot (Date_now - date) 60000;
        unit := if Z.eqb (Z.quot (Date_now - date) 60000) 1 then "minute"
                else "minutes" |}).
Proof.
  unfold _dateDiffNowFriendly, _dateDiffNow, _dateDiff, Moment_diff.
  cbn [default from_option id]. set (e := Date_now - date).
  split; intros He.
  - rewrite Z.quot_div_nonneg by lia.
    assert (1 <= e / 3600000 <= 24) by (Z.div_mod_to_equations; lia).
    destruct (Z.ltb_spec (e / 3600000) 1); [lia|].
    destruct (Z.ltb_spec 24 (e / 3600000)); [lia|].
    by destruct (Z.eqb (e / 3600000) 1).
  - assert (Z.quot e 3600000 < 1 /\ Z.quot e 60000 <= 24)
      by (Z.quot_rem_to_equations; lia).
    destruct (Z.ltb_spec (Z.quot e 3600000) 1); [|lia].
    destruct (Z.ltb_spec 24 (Z.quot e 60000)); [lia|].
    by destruct (Z.eqb (Z.quot e 60000) 1).
Qed.

Lemma dateDiffNowFriendly_ranges_witness :
  @_dateDiffNowFriendly sample_env (@Date_now sample_env - 5 * 3600000)
  = {| value := 5; unit := "hours" |} /\
  @_dateDiffNowFriendly sample_env (@Date_now sample_env + 3 * 86400000)
  = {| value := -4320; unit := "minutes" |}.
Proof.
  destruct (@dateDiffNowFriendly_ranges sample_env
              (@Date_now sample_env - 5 * 3600000)) as [Hhours _].
  destruct (@dateDiffNowFriendly_ranges sample_env
              (@Date_now sample_env + 3 * 86400000)) as [_ Hminutes].
  split.
  - apply Hhours. vm_compute. split; [discriminate|reflexivity].
  - apply Hminutes. reflexivity.
Defined.

(** *** dateFromNow *)

(** X14.  The short format of [dateFromNow], by the milliseconds elapsed
    since the date: "Now" under one minute, and for every date in the
    future; whole minutes and "m" under one hour; whole hours and "h"
    under 24 hours; the count of days and "d" from then on; and "NaNd"
    for an invalid date. *)
Theorem dateFromNow_short {env : Environment}
    (moment_fromNow : number -> bool -> string) (t : Z)
    (includeSuffix : option bool) :
  (Date_now - t < 60000 ->
   _dateFromNow moment_fromNow (Some (Num t)) includeSuffix (Some true)
   = Some "Now") /\
  (60000 <= Date_now - t < 3600000 ->
   _dateFromNow moment_fromNow (Some (Num t)) includeSuffix (Some true)
   = Some (pretty ((Date_now - t) / 60000) +:+ "m")) /\
  (3600000 <= Date_now - t < 86400000 ->
   _dateFromNow moment_fromNow (Some (Num t)) includeSuffix (Some true)
   = Some (pretty ((Date_now - t) / 3600000) +:+ "h")) /\
  (86400000 <= Date_now - t ->
   _dateFromNow moment_fromNow (Some (Num t)) includeSuffix (Some true)
   = Some (pretty (Moment_diff Date_now t Days) +:+ "d")) /\
  _dateFromNow moment_fromNow (Some NaN) includeSuffix (Some true) = Some "NaNd".
Proof.
  unfold _dateFromNow, diff_from_now, Moment_diff, number_lt, number_ge.
  cbn [default from_option id to_js_string]. set (e := Date_now - t).
  repeat split; try reflexivity; intros He.
  - assert (Z.quot e 60000 < 1) by (Z.quot_rem_to_equations; lia).
    by destruct (Z.ltb_spec (Z.quot e 60000) 1); [|lia].
  - rewrite Z.quot_div_nonneg by lia.
    assert (1 <= e / 60000 < 60) by (Z.div_mod_to_equations; lia).
    destruct (Z.ltb_spec (e / 60000) 1); [lia|].
    by destruct (Z.ltb_spec (e / 60000) 60); [|lia].
  - rewrite !Z.quot_div_nonneg by lia.
    assert (60 <= e / 60000) by (Z.div_mod_to_equations; lia).
    assert (1 <= e / 3600000 < 24) by (Z.div_mod_to_equations; lia).
    destruct (Z.ltb_spec (e / 60000) 1); [lia|].
    destruct (Z.ltb_spec (e / 60000) 60); [lia|].
    destruct (Z.leb_spec 1 (e / 3600000)); [|lia].
    by destruct (Z.ltb_spec (e / 3600000) 24); [|lia].
  - rewrite !Z.quot_div_nonneg by lia.
    assert (60 <= e / 60000) by (Z.div_mod_to_equations; lia).
    assert (24 <= e / 3600000) by (Z.div_mod_to_equations; lia).
    destruct (Z.ltb_spec (e / 60000) 1); [lia|].
    destruct (Z.ltb_spec (e / 60000) 60); [lia|].
    destruct (Z.ltb_spec (e / 3600000) 24); [lia|].
    by rewrite andb_false_r.
Qed.

Lemma dateFromNow_short_witness :
  @_dateFromNow sample_env (fun _ _ => "") (Some (Num (@Date_now sample_env + 5000)))
     None (Some true) = Some "Now" /\
  @_dateFromNow sample_env (fun _ _ => "")
     (Some (Num (@Date_now sample_env - 5 * 60000))) None (Some true) = Some "5m" /\
  @_dateFromNow sample_env (fun _ _ => "")
     (Some (Num (@Date_now sample_env - 5 * 3600000))) None (Some true) = Some "5h" /\
  @_dateFromNow sample_env (fun _ _ => "")
     (Some (Num (@Date_now sample_env - 3 * 86400000))) None (Some true) = Some "3d".
Proof.
  split; [|split; [|split]].
  - apply (@dateFromNow_short sample_env (fun _ _ => "")
             (@Date_now sample_env + 5000) None). reflexivity.
  - apply (@dateFromNow_short sample_env (fun _ _ => "")
             (@Date_now sample_env - 5 * 60000) None).
    vm_compute. split; [discriminate|reflexivity].
  - apply (@dateFromNow_short sample_env (fun _ _ => "")
             (@Date_now sample_env - 5 * 3600000) None).
    vm_compute. split; [discriminate|reflexivity].
  - apply (@dateFromNow_short sample_env (fun _ _ => "")
             (@Date_now sample_env - 3 * 86400000) None).
    vm_compute. discriminate.
Defined.

(** *** getMomentFromStandardDateFormat *)

Lemma split_on_length (sep : ascii) (s : string) :
  length (split_on sep s) = S (count_char sep s).
Proof.
  induction s as [|c rest IH]; [reflexivity|]. cbn [split_on count_char].
  destruct (Ascii.eqb c sep); cbn [length]; [by rewrite IH|].
  destruct (split_on sep rest); [discriminate IH|exact IH].
Qed.

Lemma split_on_free (sep : ascii) (s : string) :
  count_char sep s = 0%nat -> split_on sep s = [s].
Proof.
  induction s as [|c rest IH]; [reflexivity|]. cbn [split_on count_char].
  destruct (Ascii.eqb c sep); [discriminate|].
  intros H. by rewrite IH.
Qed.

Lemma split_on_app (sep : ascii) (a b : string) :
  count_char sep a = 0%nat ->
  split_on sep (a +:+ String sep b) = a :: split_on sep b.
Proof.
  induction a as [|c rest IH]; simpl.
  - by rewrite Ascii.eqb_refl.
  - destruct (Ascii.eqb c sep); [discriminate|].
    intros H. by rewrite IH.
Qed.

(** X15.  [getMomentFromStandardDateFormat] returns null for null and for
    every text that does not hold exactly two slashes; for
    month/day/year it parses month-day-year, a month or day of one
    character with a zero in front. *)
Theorem getMomentFromStandardDateFormat_parts {env : Environment}
    (format : string) :
  _getMomentFromStandardDateFormat format None = None /\
  (forall text, count_char "/" text <> 2%nat ->
     _getMomentFromStandardDateFormat format (Some text) = None) /\
  (forall m d y,
     count_char "/" m = 0%nat -> count_char "/" d = 0%nat ->
     count_char "/" y = 0%nat ->
     _getMomentFromStandardDateFormat format
       (Some (m +:+ "/" +:+ d +:+ "/" +:+ y))
     = Some (moment_parse (pad2 m +:+ "-" +:+ pad2 d +:+ "-" +:+ y) format)).
Proof.
  split; [reflexivity|]. split.
  - intros text Hcount. unfold _getMomentFromStandardDateFormat.
    rewrite split_on_length.
    destruct (Nat.eqb_spec (S (count_char "/" text)) 3); [lia|reflexivity].
  - intros m d y Hm Hd Hy. unfold _getMomentFromStandardDateFormat.
    change ("/" +:+ d +:+ "/" +:+ y) with (String "/" (d +:+ String "/" y)).
    rewrite (split_on_app "/" m) by done.
    rewrite (split_on_app "/" d) by done.
    rewrite (split_on_free "/" y) by done.
    reflexivity.
Qed.

Lemma getMomentFromStandardDateFormat_parts_witness :
  @_getMomentFromStandardDateFormat sample_env "MM-DD-YYYY" (Some "13/2024") = None /\
  @_getMomentFromStandardDateFormat sample_env "MM-DD-YYYY" (Some "3/14/2024")
  = Some (@moment_parse sample_env "03-14-2024" "MM-DD-YYYY").
Proof.
  destruct (@getMomentFromStandardDateFormat_parts sample_env "MM-DD-YYYY")
    as (_ & Hnull & Hparts).
  split.
  - apply Hnull. vm_compute. discriminate.
  - apply (Hparts "3" "14" "2024"); reflexivity.
Defined.

(** *** getMergedDateTime *)

Lemma daysInMonth_other_year (y v m : Z) :
  0 <= m < 12 -> m <> 1 -> daysInMonth v m = daysInMonth y m.
Proof.
  intros Hm H1. unfold daysInMonth. rewrite Z.mod_small by lia.
  by destruct (Z.eqb_spec m 1).
Qed.

Lemma daysInMonth_february (y : Z) :
  daysInMonth y 1 = if isLeapYear y then 29 else 28.
Proof. unfold daysInMonth. simpl. by rewrite Z.add_0_r. Qed.

Section getMergedDateTime_facts.
Context {env : Environment}.

(** The year setter on a date of the calendar: 29 February becomes 28
    February in a common year, and no other date changes. *)
Lemma set_year_clamped (t : DateTime) (v d1 : Z) :
  calendar t ->
  d1 = (if Z.eqb (date t) 29 && Z.eqb (month t) 1 && negb (isLeapYear v)
        then 28 else date t) ->
  in_zone (mkDateTime v (month t) d1
             (hour t) (minute t) (second t) (millisecond t)) ->
  Moment_set SetYear (Num v) (Valid t)
  = Valid (mkDateTime v (month t) d1
             (hour t) (minute t) (second t) (millisecond t)) /\
  1 <= d1 <= daysInMonth v (month t) /\
  (date t <= daysInMonth v (month t) -> d1 = date t).
Proof.
  destruct t as [y m d h mi s ms]. intros Ht Ed1 Hz. calendar_facts.
  assert (Hd1 : 1 <= d1 <= daysInMonth v m /\ (d <= daysInMonth v m -> d1 = d)).
  { rewrite Ed1. destruct (Z.eqb_spec m 1) as [->|Hm1].
    - rewrite daysInMonth_february in *.
      destruct (Z.eqb_spec d 29) as [->|]; destruct (isLeapYear v), (isLeapYear y);
        cbn [andb negb]; lia.
    - rewrite andb_false_r. cbn [andb].
      rewrite (daysInMonth_other_year y v m) by lia. lia. }
  split; [|exact Hd1].
  rewrite <- Ed1. apply Date_set_calendar; try lia. exact Hz.
Qed.

(** X16.  For every two valid dates, [getMergedDateTime(date, time)]
    leaves the object [time] with the year, month and day of [date] and
    its own time of the day, and returns that object; no other object
    changes.  Unlike [copyDate] it sets the year first, so 29 February
    is carried over as well.  This under the proviso that the zone of
    [time] has every local date and time that the three setters pass
    through: where the clocks skip one, the [Date] shows a later time. *)
Theorem getMergedDateTime_in_place (ld lt : nat) (h : store) (d t : DateTime) :
  h !! ld = Some (Valid d) -> h !! lt = Some (Valid t) ->
  calendar d -> calendar t ->
  Forall in_zone (getMergedDateTime_steps d t) ->
  exists h',
    _getMergedDateTime (RMoment ld) (RMoment lt) h = Ok (RMoment lt, h') /\
    h' !! lt = Some (Valid (mkDateTime (year d) (month d) (date d)
                              (hour t) (minute t) (second t) (millisecond t))) /\
    forall l, l <> lt -> h' !! l = h !! l.
Proof.
  intros Hd Ht Cd Ct Hz. unfold getMergedDateTime_steps in Hz. cbn zeta in Hz.
  zone_steps Hz.
  assert (Halias : ld = lt -> d = t) by (intros ->; congruence).
  destruct (set_year_clamped t (year d) _ Ct eq_refl Hstep1)
    as (Eyear & Hd1 & Hkeep).
  revert Hstep1 Hstep2 Eyear Hd1 Hkeep.
  generalize (if Z.eqb (date t) 29 && Z.eqb (month t) 1
                 && negb (isLeapYear (year d))
              then 28 else date t).
  intros d1 Hstep1 Hstep2 Eyear Hd1 Hkeep.
  unfold _getMergedDateTime, call_setter, Moment_date. cbn [call bind].
  rewrite (deref_Some _ _ _ Hd). cbn [get_field bind].
  rewrite (call_set_valid _ _ _ _ _ Ht). cbn [bind]. rewrite Eyear.
  set (t1 := mkDateTime (year d) (month t) d1 (hour t) (minute t) (second t)
               (millisecond t)).
  assert (C1 : calendar t1) by (unfold t1; calendar_facts; repeat split; lia).
  rewrite (read_after_set month _ _ _ d); [|done|].
  2:{ intros E. by rewrite (Halias E). }
  cbn [bind]. rewrite set_after_set. cbn [bind].
  rewrite (set_month_calendar t1 (month d) C1);
    [|calendar_facts; lia|exact Hstep2].
  cbn [year month date hour minute second millisecond t1].
  pose proof (daysInMonth_range (year d) (month d)) as Hrange.
  rewrite (read_after_set date _ _ _ d); [|done|].
  2:{ intros E. pose proof (Halias E) as Edt. subst t. cbn [date].
      calendar_facts. rewrite Hkeep by lia. lia. }
  cbn [bind]. rewrite set_after_set. cbn [bind].
  rewrite set_date_calendar;
    [|calendar_facts; repeat split; lia|calendar_facts; lia|exact Hstep3].
  cbn [year month date hour minute second millisecond].
  eexists. split; [reflexivity|]. split.
  - apply lookup_insert_eq.
  - intros l Hl. by apply lookup_insert_ne.
Qed.

End getMergedDateTime_facts.

(** 29 February 2024 at reference 1 and 15 January 2023, 12:00:00.007, at
    reference 2 *)
Lemma getMergedDateTime_in_place_witness :
  exists h',
    @_getMergedDateTime sample_env (RMoment 1) (RMoment 2)
      {[ 1%nat := Valid (mkDateTime 2024 1 29 8 30 0 0);
         2%nat := Valid (mkDateTime 2023 0 15 12 0 0 7) ]}
    = Ok (RMoment 2, h') /\
    h' !! 2%nat = Some (Valid (mkDateTime 2024 1 29 12 0 0 7)) /\
    forall l, l <> 2%nat ->
      h' !! l = ({[ 1%nat := Valid (mkDateTime 2024 1 29 8 30 0 0);
                    2%nat := Valid (mkDateTime 2023 0 15 12 0 0 7) ]} : store) !! l.
Proof.
  apply (@getMergedDateTime_in_place sample_env 1 2 _
           (mkDateTime 2024 1 29 8 30 0 0) (mkDateTime 2023 0 15 12 0 0 7)).
  - reflexivity.
  - reflexivity.
  - vm_compute. repeat split; discriminate.
  - vm_compute. repeat split; discriminate.
  - repeat (apply Forall_cons; split; [reflexivity|]). by apply Forall_nil.
Defined.

(** Where the clocks skip a time the proviso fails: with the clocks going
    forward at 02:00 on 10 March 2024, merging the date 10 March 2024 into
    the time 02:30 leaves the object at 03:30. *)
Example getMergedDateTime_spring_forward :
  let h : store := {[ 1%nat := Valid (mkDateTime 2024 2 10 12 0 0 0);
                      2%nat := Valid (mkDateTime 2024 0 1 2 30 0 0) ]} in
  match @_getMergedDateTime spring_forward_env (RMoment 1) (RMoment 2) h with
  | Ok (_, h') => h' !! 2%nat
  | Throw _ => None
  end = Some (Valid (mkDateTime 2024 2 10 3 30 0 0)).
Proof. vm_compute. reflexivity. Qed.

(** *** getSelectOptionsFromEnum *)

Lemma numeric_enum_isNaN (props : list (string * any)) (k : string) (v : any) :
  numeric_enum props -> In (k, v) props -> negb (isNaN v) = is_member_value v.
Proof.
  intros [_ Hentries] Hin.
  destruct (Hentries k v Hin) as [Hm|(name & v' & -> & Hname & _)].
  - destruct v as [| |?|[|?]|?|? ?|? ?|? ?]; simpl in Hm |- *; try discriminate.
    + reflexivity.
    + by rewrite Hm.
  - simpl. by rewrite Hname.
Qed.

Lemma get_prop_object (r : nat) (props : list (string * any)) (key : string) :
  get_prop (VObject r props) key = Ok (default VUndefined (assoc key props)).
Proof. unfold get_prop. cbn [own_props]. by destruct (assoc key props). Qed.

Lemma getSelectOptions_filter (r : nat) (props entries : list (string * any)) :
  numeric_enum props ->
  (forall e, In e entries -> In e props) ->
  filterM (fun key => v <- get_prop (VObject r props) key ;; Ok (negb (isNaN v)))
          (map fst entries)
  = Ok (map fst (enumerants entries)).
Proof.
  intros Henum. induction entries as [|[k v] rest IH]; intros Hsub;
    cbn [map fst filterM]; [reflexivity|].
  assert (Hin : In (k, v) props) by (apply Hsub; by left).
  rewrite get_prop_object, (assoc_In props k v (proj1 Henum) Hin).
  cbn [default from_option id bind].
  rewrite IH by (intros e He; apply Hsub; by right). cbn [bind].
  rewrite (numeric_enum_isNaN props k v Henum Hin).
  unfold enumerants. cbn [List.filter snd].
  by destruct (is_member_value v).
Qed.

Lemma getSelectOptions_map (r : nat) (props entries : list (string * any)) :
  mapM (fun key =>
          v <- get_prop (VObject r props) (replace_first "_" " " key) ;;
          Ok {| SelectOption.label := replace_first "_" " " key;
                SelectOption.value := v |})
       (map fst entries)
  = Ok (map (enum_option props) entries).
Proof.
  induction entries as [|e rest IH]; cbn [map mapM]; [reflexivity|].
  rewrite IH, get_prop_object. reflexivity.
Qed.

Lemma replace_first_absent (from to : ascii) (s : string) :
  count_char from s = 0%nat -> replace_first from to s = s.
Proof.
  induction s as [|c rest IH]; [reflexivity|]. cbn [count_char replace_first].
  destruct (Ascii.eqb c from); [discriminate|]. intros H. by rewrite IH.
Qed.

(** X17.  For an enum object with numeric values, [getSelectOptionsFromEnum]
    gives one option for each enumerant, in the order of the keys, and
    none for the reverse-lookup entries.  The label is the name with its
    first underscore turned into a space, and the value is what the enum
    object holds under that label: the value of the enumerant when the
    name has no underscore. *)
Theorem getSelectOptionsFromEnum_numeric_enum (r : nat)
    (props : list (string * any)) :
  numeric_enum props ->
  _getSelectOptionsFromEnum (VObject r props) None
    = Ok (map (enum_option props) (enumerants props)) /\
  forall e, In e (enumerants props) ->
    count_char "_" (fst e) = 0%nat ->
    enum_option props e
    = {| SelectOption.label := fst e; SelectOption.value := snd e |}.
Proof.
  intros Henum. split.
  - unfold _getSelectOptionsFromEnum. cbn [default from_option id Object_keys bind own_props].
    rewrite (getSelectOptions_filter r props props Henum) by done.
    cbn [bind]. apply getSelectOptions_map.
  - intros [k v] Hin Hfree. unfold enum_option. cbn [fst snd] in *.
    rewrite replace_first_absent by done.
    apply filter_In in Hin as [Hin _].
    by rewrite (assoc_In props k v (proj1 Henum) Hin).
Qed.

(** The enum object of [enum E { A, In_Progress }]: the option of
    [In_Progress] has the label "In Progress" and the value undefined. *)
Lemma getSelectOptionsFromEnum_numeric_enum_witness :
  _getSelectOptionsFromEnum
    (VObject 0 [("0", VString "A"); ("1", VString "In_Progress");
                ("A", VNum 0); ("In_Progress", VNum 1)]) None
  = Ok [ {| SelectOption.label := "A"; SelectOption.value := VNum 0 |};
         {| SelectOption.label := "In Progress"; SelectOption.value := VUndefined |} ].
Proof.
  refine (proj1 (getSelectOptionsFromEnum_numeric_enum 0
            [("0", VString "A"); ("1", VString "In_Progress");
             ("A", VNum 0); ("In_Progress", VNum 1)] _)).
  split.
  - apply NoDup_ListNoDup. repeat constructor; simpl; intuition discriminate.
  - intros k v Hin. simpl in Hin.
    destruct Hin as [E|[E|[E|[E|[]]]]]; injection E as <- <-.
    + right. exists "A", (VNum 0). repeat split.
    + right. exists "In_Progress", (VNum 1). repeat split.
    + by left.
    + by left.
Defined.

(** *** shallowMerge *)

Lemma has_key_assoc (key : string) (props : list (string * any)) :
  has_key key props = false <-> assoc key props = None.
Proof.
  induction props as [|[k x] rest IH]; simpl; [done|].
  destruct (String.eqb k key); simpl; [split; discriminate|exact IH].
Qed.

Lemma has_key_In (key : string) (props : list (string * any)) :
  has_key key props = true <-> In key (map fst props).
Proof.
  induction props as [|[k x] rest IH]; simpl; [split; [discriminate|done]|].
  destruct (String.eqb_spec k key) as [->|Hne]; simpl.
  - split; [by left|done].
  - rewrite IH. split; [by right|]. by intros [?|?].
Qed.

Lemma assoc_replace_value (key k' : string) (v : any)
    (props : list (string * any)) :
  has_key key props = true ->
  assoc k' (replace_value key v props)
  = if String.eqb key k' then Some v else assoc k' props.
Proof.
  induction props as [|[k x] rest IH]; simpl; [discriminate|].
  destruct (String.eqb_spec k key) as [->|Hne]; simpl.
  - intros _. by destruct (String.eqb_spec key k').
  - intros H. rewrite IH by done.
    destruct (String.eqb_spec k k') as [->|]; [|done].
    by destruct (String.eqb_spec key k'); [congruence|].
Qed.

Lemma assoc_insert_index (n : N) (key k' : string) (v : any)
    (props : list (string * any)) :
  has_key key props = false ->
  assoc k' (insert_index n key v props)
  = if String.eqb key k' then Some v else assoc k' props.
Proof.
  induction props as [|[k x] rest IH]; simpl; [done|].
  destruct (String.eqb_spec k key) as [->|Hne]; simpl; [discriminate|].
  intros H.
  destruct (array_index k) as [m|]; [destruct (N.ltb m n)|]; simpl;
    try reflexivity.
  rewrite IH by done.
  destruct (String.eqb_spec k k') as [->|]; [|done].
  by destruct (String.eqb_spec key k'); [congruence|].
Qed.

Lemma assoc_app_new (key k' : string) (v : any) (props : list (string * any)) :
  has_key key props = false ->
  assoc k' (props ++ [(key, v)])
  = if String.eqb key k' then Some v else assoc k' props.
Proof.
  induction props as [|[k x] rest IH]; simpl; [done|].
  destruct (String.eqb_spec k key) as [->|Hne]; simpl; [discriminate|].
  intros H. rewrite IH by done.
  destruct (String.eqb_spec k k') as [->|]; [|done].
  by destruct (String.eqb_spec key k'); [congruence|].
Qed.

Lemma assoc_define_prop (key k' : string) (v : any) (props : list (string * any)) :
  assoc k' (define_prop key v props)
  = if String.eqb key k' then Some v else assoc k' props.
Proof.
  unfold define_prop. destruct (has_key key props) eqn:E.
  - by apply assoc_replace_value.
  - destruct (array_index key); [by apply assoc_insert_index|by apply assoc_app_new].
Qed.

Lemma keys_replace_value (key : string) (v : any) (props : list (string * any)) :
  map fst (replace_value key v props) = map fst props.
Proof.
  induction props as [|[k x] rest IH]; simpl; [done|].
  destruct (String.eqb k key); simpl; congruence.
Qed.

Lemma keys_insert_index (n : N) (key : string) (v : any)
    (props : list (string * any)) :
  Permutation (map fst (insert_index n key v props)) (key :: map fst props).
Proof.
  induction props as [|[k x] rest IH]; simpl; [done|].
  destruct (array_index k) as [m|]; [destruct (N.ltb m n)|]; simpl;
    try reflexivity.
  rewrite IH. apply perm_swap.
Qed.

Lemma NoDup_define_prop (key : string) (v : any) (props : list (string * any)) :
  NoDup (map fst props) -> NoDup (map fst (define_prop key v props)).
Proof.
  intros Hnd. unfold define_prop. destruct (has_key key props) eqn:E.
  - by rewrite keys_replace_value.
  - assert (Hnew : NoDup (key :: map fst props)).
    { apply NoDup_cons. split; [|done]. rewrite list_elem_of_In.
      intros Hin. apply has_key_In in Hin. congruence. }
    destruct (array_index key).
    + by rewrite keys_insert_index.
    + rewrite map_app. cbn [map fst].
      by rewrite <- Permutation_cons_append.
Qed.

(** Spreading an object over a target: each key of the object is bound to
    the value the object gives it, and the other keys stay as they are. *)
Lemma spread_assoc (target : list (string * any)) (source : any) (key : string) :
  NoDup (map fst (own_props source)) ->
  assoc key (spread target source)
  = match assoc key (own_props source) with
    | Some v => Some v
    | None => assoc key target
    end.
Proof.
  unfold spread. generalize (own_props source) as entries.
  intros entries. revert target.
  induction entries as [|[k x] rest IH]; intros target Hnd; simpl; [done|].
  apply NoDup_cons in Hnd as [Hk Hnd].
  rewrite IH by done. rewrite assoc_define_prop.
  destruct (String.eqb_spec k key) as [->|Hne]; [|done].
  destruct (assoc key rest) eqn:E; [|done].
  exfalso. apply Hk. apply list_elem_of_In, has_key_In.
  destruct (has_key key rest) eqn:Eh; [done|].
  apply has_key_assoc in Eh. congruence.
Qed.

Lemma spread_NoDup (target : list (string * any)) (source : any) :
  NoDup (map fst target) -> NoDup (map fst (spread target source)).
Proof.
  unfold spread. generalize (own_props source) as entries.
  intros entries. revert target.
  induction entries as [|[k x] rest IH]; intros target Hnd; simpl; [done|].
  apply IH. by apply NoDup_define_prop.
Qed.

Lemma shallowMerge_fold (fresh : nat) (objects : list any)
    (props : list (string * any)) :
  Forall (fun object => NoDup (map fst (own_props object))) objects ->
  NoDup (map fst props) ->
  exists props',
    fold_left
      (fun mergedObject object =>
         VObject fresh (spread (spread [] mergedObject) object))
      objects (VObject fresh props)
    = VObject fresh props' /\
    NoDup (map fst props') /\
    forall key,
      assoc key props'
      = fold_left (fun found object =>
                     match assoc key (own_props object) with
                     | Some v => Some v
                     | None => found
                     end)
                  objects (assoc key props).
Proof.
  intros Hobjects. revert props.
  induction Hobjects as [|object objects Hobject _ IH]; intros props Hnd;
    cbn [fold_left].
  - by exists props.
  - destruct (IH (spread (spread [] (VObject fresh props)) object))
      as (props' & -> & Hnd' & Hassoc).
    { apply spread_NoDup, spread_NoDup. constructor. }
    exists props'. split; [done|]. split; [done|].
    intros key. rewrite Hassoc. f_equal.
    rewrite spread_assoc by done. rewrite spread_assoc by done.
    cbn [own_props assoc]. by destruct (assoc key props).
Qed.

(** X18.  For arguments that list no key twice, [shallowMerge] returns a
    new object in which every key is bound to the value in the last
    argument that has the key among its own enumerable properties, and a
    key that no argument has is absent; no key occurs twice.  The own
    properties of an object are its entries, those of an array its
    elements under their indices, and those of a string its characters
    under their indices; null, undefined, numbers, booleans and functions
    have none and contribute nothing. *)
Theorem shallowMerge_last_wins (fresh : nat) (objects : list any) :
  Forall (fun object => NoDup (map fst (own_props object))) objects ->
  exists props,
    _shallowMerge fresh objects = Ok (VObject fresh props) /\
    NoDup (map fst props) /\
    forall key, assoc key props = merged_binding key objects.
Proof.
  intros Hobjects. unfold _shallowMerge. rewrite isEmpty_eq.
  cbn [bind forallb empty1].
  destruct (shallowMerge_fold fresh objects [] Hobjects)
    as (props & Hfold & Hnd & Hassoc); [constructor|].
  destruct objects as [|object objects].
  - exists []. cbn. split; [done|]. split; [constructor|done].
  - cbn [length Nat.eqb andb]. rewrite Hfold.
    exists props. split; [done|]. split; [done|]. exact Hassoc.
Qed.

Lemma shallowMerge_last_wins_witness :
  exists props,
    _shallowMerge 9 [VObject 1 [("a", VNum 1); ("b", VNum 2)]; VNull;
                     VObject 2 [("b", VNum 3); ("0", VNum 4)]]
    = Ok (VObject 9 props) /\
    NoDup (map fst props) /\
    forall key,
      assoc key props
      = merged_binding key [VObject 1 [("a", VNum 1); ("b", VNum 2)]; VNull;
                            VObject 2 [("b", VNum 3); ("0", VNum 4)]].
Proof.
  apply (shallowMerge_last_wins 9).
  repeat (apply Forall_cons; split;
          [apply NoDup_ListNoDup; simpl; repeat constructor; simpl;
           intuition discriminate|]).
  apply Forall_nil. exact I.
Defined.

(** A string among the arguments contributes its characters, and a number
    nothing. *)
Example shallowMerge_samples :
  _shallowMerge 9 [VObject 1 [("a", VNum 1)]; VString "ab"; VNum 5; VNull]
  = Ok (VObject 9 [("0", VString "a"); ("1", VString "b"); ("a", VNum 1)]) /\
  _shallowMerge 9 [] = Ok (VObject 9 []).
Proof. vm_compute. split; reflexivity. Qed.

(** *** removeDuplicates *)

Lemma strict_eq_symmetric (a b : any) : strict_eq a b = strict_eq b a.
Proof.
  destruct a as [| |?|[|?]|?|? ?|? ?|? ?], b as [| |?|[|?]|?|? ?|? ?|? ?];
    simpl; try reflexivity.
  - by destruct b0, b.
  - apply Z.eqb_sym.
  - apply String.eqb_sym.
  - apply Nat.eqb_sym.
  - apply Nat.eqb_sym.
  - apply Nat.eqb_sym.
Qed.

Lemma strict_eq_self (a b : any) : strict_eq a b = true -> strict_eq a a = true.
Proof.
  intros H. apply (strict_eq_transitive a b a); [done|].
  by rewrite strict_eq_symmetric.
Qed.

(** When the search stops at the index where a second list begins, no
    element of the first list is [===] to the value. *)
Lemma value_indexOf_first (k : any) (l1 l2 : list any) :
  value_indexOf k (l1 ++ l2) = Z.of_nat (length l1) ->
  forall x, In x l1 -> strict_eq x k = false.
Proof.
  induction l1 as [|a l1 IH]; [by intros _ x []|].
  cbn [app value_indexOf length]. intros H x [<-|Hx].
  - destruct (strict_eq a k); [lia|done].
  - destruct (strict_eq a k); [lia|].
    apply IH; [|done].
    destruct (Z.eqb_spec (value_indexOf k (l1 ++ l2)) (-1)); lia.
Qed.

(** When the search passes an element that is [===] to the value without
    stopping there, it has stopped before. *)
Lemma value_indexOf_earlier (k x : any) (l1 l2 : list any) :
  strict_eq x k = true ->
  value_indexOf k (l1 ++ x :: l2) <> Z.of_nat (length l1) ->
  exists x', In x' l1 /\ strict_eq x' k = true.
Proof.
  intros Hx. induction l1 as [|a l1 IH]; cbn [app value_indexOf length].
  - rewrite Hx. intros H. by destruct H.
  - destruct (strict_eq a k) eqn:Ea.
    + intros _. exists a. split; [by left|done].
    + intros H. destruct IH as (x' & Hin & Hx').
      * intros E. apply H. rewrite E.
        destruct (Z.eqb_spec (Z.of_nat (length l1)) (-1)); lia.
      * exists x'. split; [by right|done].
Qed.

Lemma mapM_get_prop (array : list any) (prop : string) :
  Forall (fun obj => _isNullOrUndefined obj = false) array ->
  mapM (fun mapObj => get_prop mapObj prop) array = Ok (map (prop_of prop) array).
Proof.
  induction 1 as [|obj array Hobj _ IH]; cbn [mapM map]; [done|].
  by rewrite (get_prop_defined obj prop Hobj), IH.
Qed.

Section removeDuplicates_facts.
Variable prop : string.
Variable array : list any.
Hypothesis array_defined : Forall (fun obj => _isNullOrUndefined obj = false) array.

Let key := prop_of prop.
Let distinct (x y : any) : Prop := strict_eq (key x) (key y) = false.

Lemma removeDuplicates_from (pre suf : list any) :
  array = (pre ++ suf)%list ->
  exists r,
    filter_pos
      (fun obj pos =>
         props <- mapM (fun mapObj => get_prop mapObj prop) array ;;
         k <- get_prop obj prop ;;
         Ok (Z.eqb (value_indexOf k props) pos))
      suf (Z.of_nat (length pre)) = Ok r /\
    sublist r suf /\
    ForallOrdPairs distinct r /\
    (forall y, In y r -> forall x, In x pre -> distinct x y) /\
    (forall z, In z suf -> strict_eq (key z) (key z) = true ->
       (exists y, In y r /\ strict_eq (key y) (key z) = true) \/
       (exists x, In x pre /\ strict_eq (key x) (key z) = true)).
Proof.
  revert pre. induction suf as [|obj rest IH]; intros pre Harray.
  - exists []. cbn [filter_pos]. split; [done|]. split; [constructor|].
    split; [constructor|]. split; [by intros y []|by intros z []].
  - assert (Hobj : _isNullOrUndefined obj = false).
    { rewrite Forall_forall in array_defined. apply array_defined.
      rewrite Harray. apply list_elem_of_In, in_or_app. right. by left. }
    destruct (IH (pre ++ [obj])%list) as (r & Hrun & Hsub & Hpairs & Hpre & Hcover).
    { by rewrite <- app_assoc. }
    rewrite length_app, Nat.add_1_r, Nat2Z.inj_succ, <- Z.add_1_r in Hrun.
    cbn [filter_pos]. rewrite Hrun.
    rewrite (mapM_get_prop array prop array_defined).
    cbn [bind]. rewrite (get_prop_defined obj prop Hobj). cbn [bind]. fold key.
    assert (Hkeys : map key array
                    = (map key pre ++ key obj :: map key rest)%list).
    { rewrite Harray, map_app. reflexivity. }
    rewrite Hkeys.
    destruct (Z.eqb_spec (value_indexOf (key obj)
                            (map key pre ++ key obj :: map key rest))
                         (Z.of_nat (length pre))) as [Efirst|Nfirst].
    + assert (Hnone : forall x, In x pre -> distinct x obj).
      { intros x Hx. rewrite <- (length_map key) in Efirst.
        apply (value_indexOf_first _ _ _ Efirst). by apply in_map. }
      exists (obj :: r). split; [done|]. split; [by apply sublist_skip|].
      split; [|split].
      * constructor; [|done]. apply Forall_forall. intros y Hy.
        apply list_elem_of_In in Hy.
        apply (Hpre y Hy). apply in_or_app. right. by left.
      * intros y [<-|Hy] x Hx; [by apply Hnone|].
        apply (Hpre y Hy). apply in_or_app. by left.
      * intros z [<-|Hz] Hself.
        -- left. exists obj. split; [by left|done].
        -- destruct (Hcover z Hz Hself) as [(y & Hy & Hyz)|(x & Hx & Hxz)].
           ++ left. exists y. split; [by right|done].
           ++ apply in_app_or in Hx as [Hx|[<-|[]]].
              ** right. by exists x.
              ** left. exists obj. split; [by left|done].
    + exists r. split; [done|]. split; [by apply sublist_cons|].
      split; [done|]. split.
      * intros y Hy x Hx. apply (Hpre y Hy). apply in_or_app. by left.
      * assert (Hearlier : strict_eq (key obj) (key obj) = true ->
                  exists x, In x pre /\ strict_eq (key x) (key obj) = true).
        { intros Hself. rewrite <- (length_map key) in Nfirst.
          destruct (value_indexOf_earlier _ _ _ _ Hself Nfirst)
            as (k' & Hk' & Ek').
          apply in_map_iff in Hk' as (x & <- & Hx). by exists x. }
        intros z [<-|Hz] Hself; [right; by apply Hearlier|].
        destruct (Hcover z Hz Hself) as [(y & Hy & Hyz)|(x & Hx & Hxz)].
        -- left. by exists y.
        -- apply in_app_or in Hx as [Hx|[<-|[]]].
           ++ right. by exists x.
           ++ destruct (Hearlier (strict_eq_self _ _ Hxz)) as (x' & Hx' & Ex').
              right. exists x'. split; [done|].
              by apply (strict_eq_transitive _ (key obj)).
Qed.

End removeDuplicates_facts.

(** The search stops at the index where an element stands exactly when
    that element is [===] to the value and no element before it is. *)
Lemma value_indexOf_here (k x : any) (l1 l2 : list any) :
  Z.eqb (value_indexOf k (l1 ++ x :: l2)) (Z.of_nat (length l1))
  = negb (existsb (fun k' => strict_eq k' k) l1) && strict_eq x k.
Proof.
  induction l1 as [|a l1 IH]; cbn [app value_indexOf length existsb].
  - destruct (strict_eq x k); [reflexivity|]. cbn [negb andb].
    destruct (Z.eqb_spec (value_indexOf k l2) (-1)); apply Z.eqb_neq; lia.
  - destruct (strict_eq a k); cbn [orb negb andb].
    + apply Z.eqb_neq. lia.
    + rewrite <- IH.
      destruct (Z.eqb_spec (value_indexOf k (l1 ++ x :: l2)) (-1)) as [E|E].
      * rewrite E.
        destruct (Z.eqb_spec (-1) (Z.of_nat (length l1))); [lia|].
        apply Z.eqb_neq. lia.
      * destruct (Z.eqb_spec (value_indexOf k (l1 ++ x :: l2))
                             (Z.of_nat (length l1))).
        -- apply Z.eqb_eq. lia.
        -- apply Z.eqb_neq. lia.
Qed.

Lemma removeDuplicates_run (prop : string) (array pre suf : list any) :
  Forall (fun obj => _isNullOrUndefined obj = false) array ->
  array = (pre ++ suf)%list ->
  filter_pos
    (fun obj pos =>
       props <- mapM (fun mapObj => get_prop mapObj prop) array ;;
       k <- get_prop obj prop ;;
       Ok (Z.eqb (value_indexOf k props) pos))
    suf (Z.of_nat (length pre))
  = Ok (first_occurrences (prop_of prop) (map (prop_of prop) pre) suf).
Proof.
  intros Hdefined. revert pre.
  induction suf as [|obj rest IH]; intros pre Harray; [reflexivity|].
  assert (Hobj : _isNullOrUndefined obj = false).
  { rewrite Forall_forall in Hdefined. apply Hdefined.
    rewrite Harray. apply list_elem_of_In, in_or_app. right. by left. }
  specialize (IH (pre ++ [obj])%list).
  rewrite length_app, Nat.add_1_r, Nat2Z.inj_succ, <- Z.add_1_r, map_app in IH.
  cbn [filter_pos first_occurrences]. rewrite IH by (by rewrite <- app_assoc).
  rewrite (mapM_get_prop array prop Hdefined).
  cbn [bind]. rewrite (get_prop_defined obj prop Hobj). cbn [bind].
  rewrite Harray, map_app. cbn [map].
  rewrite <- (length_map (prop_of prop) pre) at 1.
  by rewrite value_indexOf_here.
Qed.

Lemma has_own_defined (prop : string) (array : list any) :
  Forall (fun obj => has_own prop obj = true) array ->
  Forall (fun obj => _isNullOrUndefined obj = false) array.
Proof.
  intros H. eapply Forall_impl; [exact H|]. intros obj Hobj. by destruct obj.
Qed.

(** X19.  For an array whose elements all have the property as their own,
    [removeDuplicates] returns the elements that are the first with their
    value of the property, in their order: an element is kept exactly when
    its value is [===] to the value of no element before it and to itself
    (any value but NaN).  So the result is a subsequence of the array, no
    two of its elements have [===] values of the property, and every
    element of the array whose value is [===] to itself has an element
    with that value in the result. *)
Theorem removeDuplicates_first_occurrences (array : list any)
    (prop : option string) :
  Forall (fun obj => has_own (default "id" prop) obj = true) array ->
  let key := prop_of (default "id" prop) in
  let r := first_occurrences key [] array in
  _removeDuplicates array prop = Ok r /\
  sublist r array /\
  ForallOrdPairs (fun x y => strict_eq (key x) (key y) = false) r /\
  forall z, In z array -> strict_eq (key z) (key z) = true ->
    exists y, In y r /\ strict_eq (key y) (key z) = true.
Proof.
  intros Hown key r. apply has_own_defined in Hown as Harray.
  assert (Hrun : _removeDuplicates array prop = Ok r).
  { apply (removeDuplicates_run (default "id" prop) array [] array Harray eq_refl). }
  destruct (removeDuplicates_from (default "id" prop) array Harray [] array eq_refl)
    as (r' & Hrun' & Hsub & Hpairs & _ & Hcover).
  assert (r' = r) as ->.
  { unfold _removeDuplicates in Hrun. cbn zeta in Hrun.
    change (Z.of_nat (length (@nil any))) with 0 in Hrun'. congruence. }
  split; [exact Hrun|]. split; [done|]. split; [done|].
  intros z Hz Hself.
  destruct (Hcover z Hz Hself) as [H|(x & [] & _)]. exact H.
Qed.

Lemma removeDuplicates_first_occurrences_witness :
  _removeDuplicates [VObject 1 [("id", VNum 1)]; VObject 2 [("id", VNum 2)];
                     VObject 3 [("id", VNum 1)]; VObject 4 [("id", VNumber NaN)]]
                    None
  = Ok [VObject 1 [("id", VNum 1)]; VObject 2 [("id", VNum 2)]].
Proof.
  apply (removeDuplicates_first_occurrences
           [VObject 1 [("id", VNum 1)]; VObject 2 [("id", VNum 2)];
            VObject 3 [("id", VNum 1)]; VObject 4 [("id", VNumber NaN)]] None).
  repeat (apply Forall_cons; split; [reflexivity|]). apply Forall_nil. exact I.
Defined.

(** X20.  [removeDuplicates] raises a [TypeError] as soon as one element
    of the array is null or undefined. *)
Theorem removeDuplicates_null_element (array : list any) (prop : option string)
    (obj : any) :
  In obj array -> _isNullOrUndefined obj = true ->
  _removeDuplicates array prop = Throw TypeError.
Proof.
  intros Hin Hnull.
  assert (Hmap : mapM (fun mapObj => get_prop mapObj (default "id" prop)) array
                 = Throw TypeError).
  { clear -Hin Hnull. induction array as [|a array IH]; [done|].
    cbn [mapM]. destruct Hin as [->|Hin].
    - by destruct obj.
    - rewrite (IH Hin). destruct (get_prop a (default "id" prop)) as [?|[]]; done. }
  unfold _removeDuplicates. destruct array as [|a array]; [done|].
  cbn [filter_pos]. by rewrite Hmap.
Qed.

Lemma removeDuplicates_null_element_witness :
  _removeDuplicates [VObject 1 [("id", VNum 1)]; VNull] None = Throw TypeError.
Proof.
  apply (removeDuplicates_null_element _ None VNull).
  - right. left. reflexivity.
  - reflexivity.
Defined.

(* ===================================================================== *)
(** ** Deep equality of copies *)
(* ===================================================================== *)

(** Induction on a value, with the property at hand for the elements of
    an array and for the values of an object *)
Lemma any_nested_ind (P : any -> Prop) :
  P VUndefined -> P VNull -> (forall b, P (VBool b)) ->
  (forall n, P (VNumber n)) -> (forall s, P (VString s)) ->
  (forall r s, P (VFunction r s)) ->
  (forall r xs, Forall P xs -> P (VArray r xs)) ->
  (forall r ps, Forall (fun e => P (snd e)) ps -> P (VObject r ps)) ->
  forall a, P a.
Proof.
  intros Hu Hn Hb Hnum Hs Hf Harr Hobj. fix IH 1. intros [| |b|n|s|r s|r xs|r ps].
  - exact Hu.
  - exact Hn.
  - apply Hb.
  - apply Hnum.
  - apply Hs.
  - apply Hf.
  - apply Harr. induction xs as [|x xs IHxs]; constructor; [apply IH|exact IHxs].
  - apply Hobj. induction ps as [|[k x] ps IHps]; constructor;
      [apply IH|exact IHps].
Qed.

Lemma isEqual_props_true (objectB : any) (keysB : list string)
    (entries : list (string * any)) :
  (forall k a, In (k, a) entries ->
     In k keysB /\
     exists b, get_prop objectB k = Ok b /\ property_equal a b) ->
  isEqual_props _isEqual objectB keysB entries = Ok true.
Proof.
  induction entries as [|[k a] rest IH]; intros H; simpl; [done|].
  destruct (H k a) as (Hin & b & Hget & Heq); [by left|].
  unfold isEqual_key. rewrite (indexOf_found _ _ Hin), Hget. simpl.
  assert (Hrest : isEqual_props _isEqual objectB keysB rest = Ok true).
  { apply IH. intros k' a' Hin'. apply H. by right. }
  unfold property_equal in Heq.
  destruct (String.eqb (typeof a) "function" || String.eqb (typeof b) "function").
  - destruct Heq as (text & -> & ->). simpl. by rewrite String.eqb_refl.
  - rewrite Heq. simpl. exact Hrest.
Qed.

Lemma assoc_combine_index (ys : list any) (s j : nat) (b : any) :
  ys !! j = Some b ->
  assoc (pretty (s + j)%nat)
        (combine (map (fun i : nat => pretty i) (seq s (length ys))) ys)
  = Some b.
Proof.
  revert s j; induction ys as [|y ys IH]; intros s j Hj; [done|].
  destruct j as [|j]; simpl in *.
  - injection Hj as <-. by rewrite Nat.add_0_r, String.eqb_refl.
  - destruct (String.eqb_spec (pretty s) (pretty (s + S j)%nat)) as [E|_].
    + apply (inj pretty) in E. lia.
    + rewrite <- Nat.add_succ_comm. by apply IH.
Qed.

Section copies.
Variable P : any -> Prop.
Hypothesis P_def :
  forall a, P a <-> (forall b, same_data a b = true -> well_keyed a ->
                               property_equal a b).

Lemma same_elems_lookup (xs ys : list any) :
  Forall P xs -> same_elems same_data xs ys = true ->
  fold_right (fun x rest => well_keyed x /\ rest) True xs ->
  length xs = length ys /\
  forall j a, xs !! j = Some a ->
    exists b, ys !! j = Some b /\ property_equal a b.
Proof.
  intros HP. revert ys. induction HP as [|x xs Hx _ IH]; intros [|y ys];
    simpl; try discriminate.
  - intros _ _. split; [done|]. by intros j a.
  - intros Hsame [Hwk Hwks]. apply andb_prop in Hsame as [Hxy Hrest].
    destruct (IH ys Hrest Hwks) as [Hlen Hlookup].
    split; [by rewrite Hlen|].
    intros [|j] a Hj; simpl in Hj.
    + injection Hj as <-. exists y. split; [done|]. by apply P_def.
    + by apply Hlookup.
Qed.

Lemma same_props_lookup (ps qs : list (string * any)) :
  Forall (fun e => P (snd e)) ps -> same_props same_data ps qs = true ->
  fold_right (fun e rest => well_keyed (snd e) /\ rest) True ps ->
  map fst qs = map fst ps /\
  forall k a, In (k, a) ps ->
    exists b, In (k, b) qs /\ property_equal a b.
Proof.
  intros HP. revert qs. induction HP as [|[k x] ps Hx _ IH]; intros [|[k' y] qs];
    simpl; try discriminate.
  - intros _ _. split; [done|]. by intros k a [].
  - intros Hsame [Hwk Hwks].
    apply andb_prop in Hsame as [Hsame Hrest].
    apply andb_prop in Hsame as [Hk Hxy].
    apply String.eqb_eq in Hk as <-.
    destruct (IH qs Hrest Hwks) as [Hkeys Hlookup].
    split; [by rewrite Hkeys|].
    intros k0 a [[= <- <-]|Hin].
    + exists y. split; [by left|]. by apply (proj1 (P_def x) Hx).
    + destruct (Hlookup k0 a Hin) as (b & Hb & Heq).
      exists b. split; [by right|done].
Qed.

End copies.

Lemma property_equal_copies (a : any) :
  forall b, same_data a b = true -> well_keyed a -> property_equal a b.
Proof.
  induction a as [| |x|n|s|r s|r xs IH|r ps IH] using any_nested_ind;
    intros b Hsame Hwk.
  - by destruct b.
  - by destruct b.
  - destruct b as [| |y|?|?|? ?|? ?|? ?]; try discriminate Hsame.
    apply Bool.eqb_prop in Hsame as ->. unfold property_equal. simpl.
    by rewrite Bool.eqb_reflx.
  - destruct n as [|x]; [by destruct b|].
    destruct b as [| |?|[|y]|?|? ?|? ?|? ?]; try discriminate Hsame.
    simpl in Hsame. apply Z.eqb_eq in Hsame as ->. unfold property_equal.
    simpl. by rewrite Z.eqb_refl.
  - destruct b as [| |?|?|t|? ?|? ?|? ?]; try discriminate Hsame.
    simpl in Hsame. apply String.eqb_eq in Hsame as ->. unfold property_equal.
    simpl. by rewrite String.eqb_refl.
  - destruct b as [| |?|?|?|r' s'|? ?|? ?]; try discriminate Hsame.
    simpl in Hsame. apply String.eqb_eq in Hsame as ->. unfold property_equal.
    simpl. by exists s'.
  - destruct b as [| |?|?|?|? ?|r' ys|? ?]; try discriminate Hsame.
    simpl in Hsame, Hwk.
    destruct (same_elems_lookup
                (fun a => forall b, same_data a b = true -> well_keyed a ->
                                    property_equal a b)
                (fun a => conj (fun H => H) (fun H => H)) xs ys IH Hsame Hwk)
      as [Hlen Hlookup].
    unfold property_equal. simpl.
    destruct (Nat.eqb r r'); [reflexivity|].
    rewrite !map_fst_combine by (by rewrite length_index_keys).
    rewrite !length_index_keys, Hlen, Nat.eqb_refl. simpl.
    apply isEqual_elems_true. intros j a Hj. simpl.
    destruct (Hlookup j a Hj) as (b & Hb & Heq).
    assert (j < length ys)%nat by (by eapply lookup_lt_Some).
    split.
    + unfold index_keys. apply in_map_iff. exists j. split; [done|].
      apply in_seq. lia.
    + exists b. split; [|done]. unfold get_prop. cbn [own_props].
      unfold index_keys.
      pose proof (assoc_combine_index ys 0 j b Hb) as E. simpl in E.
      by rewrite E.
  - destruct b as [| |?|?|?|? ?|? ?|r' qs]; try discriminate Hsame.
    simpl in Hsame, Hwk. destruct Hwk as [Hnd Hwk].
    destruct (same_props_lookup
                (fun a => forall b, same_data a b = true -> well_keyed a ->
                                    property_equal a b)
                (fun a => conj (fun H => H) (fun H => H)) ps qs IH Hsame Hwk)
      as [Hkeys Hlookup].
    unfold property_equal. simpl.
    destruct (Nat.eqb r r'); [reflexivity|].
    rewrite Hkeys, Nat.eqb_refl. simpl.
    apply isEqual_props_true. intros k a Hin.
    destruct (Hlookup k a Hin) as (b & Hb & Heq).
    split.
    + apply in_map_iff. by exists (k, a).
    + exists b. split; [|done]. rewrite get_prop_object.
      rewrite (assoc_In qs k b); [done| |done]. by rewrite Hkeys.
Qed.

(** X21.  [isEqual] is true for two values that hold the same data (a
    value and a copy of it, with NaN nowhere in them), whatever the
    identities of the objects and functions inside; the values themselves
    must not be functions, which [isEqual] compares by identity. *)
Theorem isEqual_copies (a b : any) :
  same_data a b = true -> well_keyed a ->
  String.eqb (typeof a) "function" = false ->
  _isEqual a b = Ok true.
Proof.
  intros Hsame Hwk Hfun.
  pose proof (property_equal_copies a b Hsame Hwk) as H.
  unfold property_equal in H. rewrite Hfun in H.
  assert (Hb : String.eqb (typeof b) "function" = false).
  { destruct a as [| |?|[|?]|?|? ?|? ?|? ?], b as [| |?|[|?]|?|? ?|? ?|? ?];
      try discriminate Hsame; try discriminate Hfun; reflexivity. }
  by rewrite Hb in H.
Qed.

Lemma isEqual_copies_witness :
  _isEqual
    (VObject 1 [("name", VString "a"); ("tags", VArray 2 [VNum 1; VNull]);
                ("run", VFunction 3 "() => 1")])
    (VObject 4 [("name", VString "a"); ("tags", VArray 5 [VNum 1; VNull]);
                ("run", VFunction 6 "() => 1")])
  = Ok true.
Proof.
  apply isEqual_copies.
  - reflexivity.
  - simpl. split; [|tauto].
    apply NoDup_ListNoDup. repeat constructor; simpl; intuition discriminate.
  - reflexivity.
Defined.

(* ===================================================================== *)
(** ** Further properties of isEmpty, differenceOf and intersectionOf *)
(* ===================================================================== *)

Lemma forallb_false_exists {A : Type} (p : A -> bool) (l : list A) :
  forallb p l = false <-> exists x, In x l /\ p x = false.
Proof.
  induction l as [|x l IH]; simpl.
  - split; [discriminate|]. by intros (x & [] & _).
  - destruct (p x) eqn:Hx; simpl.
    + rewrite IH. split.
      * intros (y & Hy & Hpy). exists y. split; [by right|done].
      * intros (y & [<-|Hy] & Hpy); [congruence|]. by exists y.
    + split; [|done]. intros _. exists x. split; [by left|done].
Qed.

(** X22.  [isEmpty] of several arguments is true exactly when [isEmpty] of
    each one alone is true, and [hasValues] of several arguments is true
    exactly when [hasValues] of at least one of them alone is true. *)
Theorem isEmpty_every_argument (collections : list collection) :
  (_isEmpty collections = Ok true <->
   forall c, In c collections -> _isEmpty [c] = Ok true) /\
  (_hasValues collections = Ok true <->
   exists c, In c collections /\ _hasValues [c] = Ok true).
Proof.
  assert (Hone : forall c, _isEmpty [c] = Ok (empty1 c)).
  { intros c. rewrite isEmpty_eq. simpl. by rewrite andb_true_r. }
  assert (Hany : forall c, _hasValues [c] = Ok (negb (empty1 c))).
  { intros c. unfold _hasValues. rewrite hasValues_from_eq. simpl.
    by rewrite andb_true_r. }
  split.
  - rewrite isEmpty_eq. split.
    + intros [= H] c Hc. rewrite Hone. f_equal.
      by apply (proj1 (forallb_forall _ _) H).
    + intros H. f_equal. apply forallb_forall. intros c Hc.
      specialize (H c Hc). rewrite Hone in H. by injection H.
  - assert (_hasValues collections
            = Ok (negb (forallb empty1 collections))) as ->.
    { unfold _hasValues. by rewrite hasValues_from_eq. }
    split.
    + intros [= H]. apply negb_true_iff, forallb_false_exists in H
        as (c & Hc & Hempty).
      exists c. split; [done|]. by rewrite Hany, Hempty.
    + intros (c & Hc & H). rewrite Hany in H. injection H as H.
      f_equal. apply negb_true_iff, forallb_false_exists.
      exists c. split; [done|]. by apply negb_true_iff.
Qed.

Lemma List_filter_sublist {A : Type} (p : A -> bool) (l : list A) :
  sublist (List.filter p l) l.
Proof.
  induction l as [|x l IH]; simpl; [constructor|].
  destruct (p x); by constructor.
Qed.

(** X23.  For every two collections that Immutable reads as lists and
    every comparator, transitive or not, [differenceOf] and
    [intersectionOf] return elements of A in the order of A: each result
    is A with some elements left out. *)
Theorem difference_intersection_in_order
    (A B : collection) (comparator : option (any -> any -> bool))
    (a b : list any) :
  List_of A = Ok a ->
  List_of B = Ok b ->
  exists d i : list any,
    _differenceOf A B comparator = Ok d /\
    _intersectionOf A B comparator = Ok i /\
    sublist d a /\ sublist i a.
Proof.
  intros HA HB. unfold _differenceOf, _intersectionOf. rewrite HA, HB. simpl.
  eexists _, _. split; [reflexivity|]. split; [reflexivity|].
  split; apply List_filter_sublist.
Qed.

Lemma difference_intersection_in_order_witness :
  exists d i : list any,
    _differenceOf (Plain (VArray 1 [VNum 3; VNum 1; VNum 2]))
                  (ImmList [VNum 2; VNum 3]) (Some precedes) = Ok d /\
    _intersectionOf (Plain (VArray 1 [VNum 3; VNum 1; VNum 2]))
                    (ImmList [VNum 2; VNum 3]) (Some precedes) = Ok i /\
    sublist d [VNum 3; VNum 1; VNum 2] /\ sublist i [VNum 3; VNum 1; VNum 2].
Proof.
  apply (difference_intersection_in_order
           (Plain (VArray 1 [VNum 3; VNum 1; VNum 2]))
           (ImmList [VNum 2; VNum 3]) (Some precedes)
           [VNum 3; VNum 1; VNum 2] [VNum 2; VNum 3]); reflexivity.
Defined.

Lemma some_match_self (a : list any) (x : any) :
  In x a -> some_match strict_eq a x = negb (is_NaN_value x).
Proof.
  intros Hx. unfold some_match.
  destruct (existsb (fun elementB => strict_eq x elementB) a) eqn:Hm.
  - apply existsb_exists in Hm as (y & _ & Hxy).
    apply strict_eq_self in Hxy. by destruct x as [| |?|[|?]|?|? ?|? ?|? ?].
  - destruct (is_NaN_value x) eqn:Hnan; [done|].
    assert (Hself : strict_eq x x = true).
    { destruct x as [| |[]|[|?]|?|? ?|? ?|? ?]; simpl in *;
        rewrite ?Z.eqb_refl, ?String.eqb_refl, ?Nat.eqb_refl; congruence. }
    assert (Hex : existsb (fun elementB => strict_eq x elementB) a = true).
    { apply existsb_exists. by exists x. }
    congruence.
Qed.

(** X24.  Under the default comparator, the difference of a collection
    with itself is not always empty: it holds exactly the NaN elements, in
    their order, and the intersection of the collection with itself holds
    all the others. *)
Theorem differenceOf_itself (A : collection) (a : list any) :
  List_of A = Ok a ->
  _differenceOf A A None = Ok (List.filter is_NaN_value a) /\
  _intersectionOf A A None
  = Ok (List.filter (fun x => negb (is_NaN_value x)) a).
Proof.
  intros HA. unfold _differenceOf, _intersectionOf. rewrite HA. simpl.
  split; f_equal; apply filter_ext_in; intros x Hx.
  - change (negb (some_match strict_eq a x) = is_NaN_value x).
    rewrite (some_match_self a x Hx). by destruct (is_NaN_value x).
  - change (some_match strict_eq a x = negb (is_NaN_value x)).
    by apply some_match_self.
Qed.

Lemma differenceOf_itself_witness :
  _differenceOf (Plain (VArray 1 [VNum 1; VNumber NaN; VString "a"]))
                (Plain (VArray 1 [VNum 1; VNumber NaN; VString "a"])) None
  = Ok [VNumber NaN] /\
  _intersectionOf (Plain (VArray 1 [VNum 1; VNumber NaN; VString "a"]))
                  (Plain (VArray 1 [VNum 1; VNumber NaN; VString "a"])) None
  = Ok [VNum 1; VString "a"].
Proof.
  apply (differenceOf_itself
           (Plain (VArray 1 [VNum 1; VNumber NaN; VString "a"]))
           [VNum 1; VNumber NaN; VString "a"]).
  reflexivity.
Defined.

(** X25.  A null or undefined second collection counts as empty: the
    difference is then all of A and the intersection is empty, whatever
    the comparator.  A null or undefined first collection gives an empty
    difference and an empty intersection. *)
Theorem difference_intersection_absent
    (A B : collection) (comparator : option (any -> any -> bool))
    (a b : list any) :
  List_of A = Ok a ->
  List_of B = Ok b ->
  (collection_isNullOrUndefined B = true ->
   _differenceOf A B comparator = Ok a /\
   _intersectionOf A B comparator = Ok []) /\
  (collection_isNullOrUndefined A = true ->
   _differenceOf A B comparator = Ok [] /\
   _intersectionOf A B comparator = Ok []).
Proof.
  intros HA HB. unfold _differenceOf, _intersectionOf. rewrite HA, HB. simpl.
  split.
  - intros Hnull.
    assert (b = []) as ->.
    { destruct B as [[| |?|?|?|? ?|? ?|? ?]|?]; simpl in *; congruence. }
    split; f_equal; [by apply filter_all|by apply filter_none].
  - intros Hnull.
    assert (a = []) as ->.
    { destruct A as [[| |?|?|?|? ?|? ?|? ?]|?]; simpl in *; congruence. }
    done.
Qed.

Lemma difference_intersection_absent_witness :
  _differenceOf (ImmList [VNum 1; VNum 2]) (Plain VNull) None
  = Ok [VNum 1; VNum 2] /\
  _intersectionOf (ImmList [VNum 1; VNum 2]) (Plain VNull) None = Ok [].
Proof.
  apply (difference_intersection_absent
           (ImmList [VNum 1; VNum 2]) (Plain VNull) None [VNum 1; VNum 2] []);
    reflexivity.
Defined.

(* ===================================================================== *)
(** ** Further properties of formatDate and parseDate *)
(* ===================================================================== *)

Section DateUtils_further.
Context {env : Environment}.

Lemma parse_with_first (value : string)
    (pre : list (string * (string -> bool))) (format : string)
    (shouldParse : string -> bool) (post : list (string * (string -> bool))) :
  (forall f sp, In (f, sp) pre -> sp value = true ->
                isValid (moment_parse value f) = false) ->
  shouldParse value = true ->
  isValid (moment_parse value format) = true ->
  parse_with (pre ++ (format, shouldParse) :: post) value
  = moment_parse value format.
Proof.
  intros Hpre Hshould Hvalid. induction pre as [|[f sp] pre IH]; simpl.
  - by rewrite Hshould, Hvalid.
  - assert (IH' : parse_with (pre ++ (format, shouldParse) :: post) value
                  = moment_parse value format).
    { apply IH. intros f' sp' Hin. apply Hpre. by right. }
    destruct (sp value) eqn:Hsp; simpl; [|exact IH'].
    rewrite (Hpre f sp) by (done || by left). exact IH'.
Qed.

(** X26.  [parseDate] tries the formats in their order and returns the
    first reading that is valid: when the text is not empty, a format of
    the list applies to the text and gives a valid date, and every format
    before it either does not apply or gives an invalid date, the result
    is the reading under that format. *)
Theorem parseDate_first_valid (value : string)
    (pre : list (string * (string -> bool))) (format : string)
    (shouldParse : string -> bool) (post : list (string * (string -> bool))) :
  stringIsEmpty value = false ->
  commonDateFormats = (pre ++ (format, shouldParse) :: post)%list ->
  (forall f sp, In (f, sp) pre -> sp value = true ->
                isValid (moment_parse value f) = false) ->
  shouldParse value = true ->
  isValid (moment_parse value format) = true ->
  _parseDate value = moment_parse value format /\
  isValid (_parseDate value) = true.
Proof.
  intros Hempty Hlist Hpre Hshould Hvalid.
  assert (H : _parseDate value = moment_parse value format).
  { unfold _parseDate. rewrite Hempty, Hlist. by apply parse_with_first. }
  split; [exact H|]. by rewrite H.
Qed.

(** X27.  [formatDate] changes a date object only when it is handed both
    the object and a timezone: for plain data, and for every call without
    a timezone, the store after the call is the store before it. *)
Theorem formatDate_leaves_dates (timestamp : timestamp) (format : option string)
    (showRelativeDates : option bool) (timezone : option string) (h : store) :
  (forall l, timestamp = TMoment l -> stringHasValue timezone = false) ->
  snd (_formatDate timestamp format showRelativeDates timezone h) = h.
Proof.
  intros Hzone. unfold _formatDate. cbn zeta.
  destruct (_ || _); [done|].
  match goal with
  | |- snd (match ?r with _ => _ end) = _ => destruct r; [done|]
  end.
  destruct timestamp as [v|l].
  - by destruct (stringHasValue timezone).
  - by rewrite (Hzone l eq_refl).
Qed.

End DateUtils_further.

Lemma parseDate_first_valid_witness :
  @_parseDate reading_env "3/4/2024" = Valid (mkDateTime 2024 2 4 0 0 0 0) /\
  isValid (@_parseDate reading_env "3/4/2024") = true.
Proof.
  apply (@parseDate_first_valid reading_env "3/4/2024"
           [("M/D/YY", @shouldParseOrdinalMonthDayTwoDigitYear)]
           "M/D/YYYY" (@shouldParseOrdinalMonthDayFullYear)
           [("YYYY-MM-DDTHH:mm:ssZ", fun _ => true);
            ("YYYY-MM-DD HH:mm:ss Z", fun _ => true)]).
  - reflexivity.
  - reflexivity.
  - intros f sp [[= <- <-]|[]] Happlies. vm_compute in Happlies.
    discriminate Happlies.
  - reflexivity.
  - reflexivity.
Defined.

Lemma formatDate_leaves_dates_witness :
  snd (@_formatDate sample_env (TMoment 1) None None None
         {[ 1%nat := Valid (mkDateTime 2020 0 1 0 0 0 0) ]})
  = {[ 1%nat := Valid (mkDateTime 2020 0 1 0 0 0 0) ]}.
Proof.
  apply (@formatDate_leaves_dates sample_env). intros l _. reflexivity.
Defined.
